(** * ChatGPT.js: a shallow embedding of the conversation wrapper

    The development follows the class [ChatGPT] of the repository method by
    method.  JavaScript objects used as dictionaries ([#conf], request
    bodies, temporary configurations) are finite maps from property names to
    values; the catalog [models] is an association list, because the order of
    its keys is observable ([Object.keys]); the turns of [history] are
    referred to by their index, because the code hands out live references to
    them and later writes through those references. *)

From Stdlib Require Import ZArith QArith String Ascii List.
From stdpp Require Import base strings gmap list.

Local Open Scope Z_scope.
Local Open Scope string_scope.

(** ** Numbers

    A JavaScript number is a double.  The finite ones are idealised as
    rationals, and sums and differences are exact: they are those of the
    code wherever the operands and the result are integers of magnitude at
    most 2^53, which is the case of the token counts and limits the class
    computes with.  On other operands the code rounds and this model does
    not; the statements about arithmetic below take integers. *)

Inductive number :=
| NaN
| NegInf
| PosInf
| Fin (q : Q).

Definition Int (z : Z) : number := Fin (inject_Z z).

Definition Qgt_bool (a b : Q) : bool := negb (Qle_bool a b).

(** [a > b] *)
Definition num_gt (a b : number) : bool :=
  match a, b with
  | NaN, _ | _, NaN => false
  | NegInf, _ => false
  | _, PosInf => false
  | PosInf, _ => true
  | Fin _, NegInf => true
  | Fin x, Fin y => Qgt_bool x y
  end.

(** [a + b] *)
Definition num_add (a b : number) : number :=
  match a, b with
  | NaN, _ | _, NaN => NaN
  | PosInf, NegInf | NegInf, PosInf => NaN
  | PosInf, _ | _, PosInf => PosInf
  | NegInf, _ | _, NegInf => NegInf
  | Fin x, Fin y => Fin (Qred (x + y))
  end.

(** [a - b] *)
Definition num_sub (a b : number) : number :=
  match a, b with
  | NaN, _ | _, NaN => NaN
  | PosInf, PosInf | NegInf, NegInf => NaN
  | PosInf, _ | _, NegInf => PosInf
  | NegInf, _ | _, PosInf => NegInf
  | Fin x, Fin y => Fin (Qred (x - y))
  end.

(** [Math.max(a, b)] on two arguments *)
Definition num_max (a b : number) : number :=
  match a, b with
  | NaN, _ | _, NaN => NaN
  | PosInf, _ | _, PosInf => PosInf
  | NegInf, x | x, NegInf => x
  | Fin x, Fin y => if Qgt_bool y x then b else a
  end.

(** [Math.max(...l)]: minus infinity without arguments, [NaN] as soon as one
    argument is [NaN]. *)
Definition math_max (l : list number) : number := foldr num_max NegInf l.

(** ** Values *)

Inductive role := system | user | assistant.

Definition role_name (r : role) : string :=
  match r with
  | system => "system"
  | user => "user"
  | assistant => "assistant"
  end.

(** The values that flow through the class: primitives, arrays, and the
    message objects [{ role, content }] of a chat request. *)
#[warnings="-register-all"]
Inductive value :=
| VUndefined
| VNull
| VBool (b : bool)
| VNum (n : number)
| VStr (s : string)
| VArr (l : list value)
| VMsg (r : role) (content : string).

(** An object used as a dictionary: own properties only. *)
Abbreviation obj := (gmap string value).

(** [o.p], which is [undefined] for a missing property *)
Definition prop (o : obj) (p : string) : value := default VUndefined (o !! p).

(** [Object.assign(target, source)] *)
Definition assign (target source : obj) : obj := source ∪ target.

(** ** Strings *)

(** Characters stand for code units; the white space [trim] removes is the
    part of ECMAScript's WhiteSpace and LineTerminator below 256. *)
Definition is_space (c : ascii) : bool :=
  let n := nat_of_ascii c in
  ((9 <=? n) && (n <=? 13) || (n =? 32) || (n =? 160))%nat.

Fixpoint trim_start (s : string) : string :=
  match s with
  | String c s' => if is_space c then trim_start s' else s
  | EmptyString => EmptyString
  end.

Fixpoint trim_end (s : string) : string :=
  match s with
  | String c s' =>
      match trim_end s' with
      | EmptyString => if is_space c then EmptyString else String c EmptyString
      | t => String c t
      end
  | EmptyString => EmptyString
  end.

(** [s.trim()] *)
Definition trim (s : string) : string := trim_end (trim_start s).

(** [s.slice(n)] for [0 <= n] *)
Fixpoint slice (n : nat) (s : string) : string :=
  match n, s with
  | O, _ => s
  | S n', String _ s' => slice n' s'
  | S _, EmptyString => EmptyString
  end.

(** [s.startsWith(p)] *)
Definition startsWith (s p : string) : bool := String.prefix p s.

(** The line feed of a template literal *)
Definition nl : string := String (ascii_of_nat 10) "".

(** [l.join(sep)] on an array of strings *)
Definition join (sep : string) (l : list string) : string := String.concat sep l.

(** ** The host

    What the class takes from outside itself: the tokenizer of
    [gpt-3-encoder] ([None] when it throws), and the two conversions of the
    language between numbers and strings, which the class reaches only
    through implicit coercions. *)
Class Host := {
  encode : string -> option (list Z);
  NumberToString : number -> string;
  StringToNumber : string -> number
}.

Section Coercions.
Context `{Host}.

(** ToString *)
Fixpoint ToString (v : value) : string :=
  match v with
  | VUndefined => "undefined"
  | VNull => "null"
  | VBool true => "true"
  | VBool false => "false"
  | VNum n => NumberToString n
  | VStr s => s
  | VArr l =>
      join "," (List.map (fun x => match x with
                                   | VUndefined | VNull => ""
                                   | _ => ToString x
                                   end) l)
  | VMsg _ _ => "[object Object]"
  end.

(** ToNumber *)
Definition ToNumber (v : value) : number :=
  match v with
  | VUndefined => NaN
  | VNull => Int 0
  | VBool true => Int 1
  | VBool false => Int 0
  | VNum n => n
  | VStr s => StringToNumber s
  | VArr _ | VMsg _ _ => StringToNumber (ToString v)
  end.

(** Whether ToPrimitive yields a string. *)
Definition stringy (v : value) : bool :=
  match v with
  | VStr _ | VArr _ | VMsg _ _ => true
  | _ => false
  end.

(** [a + b] *)
Definition js_add (a b : value) : value :=
  if stringy a || stringy b then VStr (ToString a ++ ToString b)
  else VNum (num_add (ToNumber a) (ToNumber b)).

(** [a > n] against a number *)
Definition js_gt (a : value) (n : number) : bool := num_gt (ToNumber a) n.

End Coercions.

(** ToBoolean *)
Definition truthy (v : value) : bool :=
  match v with
  | VUndefined | VNull => false
  | VBool b => b
  | VNum NaN => false
  | VNum (Fin q) => negb (Qeq_bool q 0)
  | VNum _ => true
  | VStr s => negb (String.eqb s "")
  | VArr _ | VMsg _ _ => true
  end.

(** [JSON.parse(JSON.stringify(v))] inside an array or as a property value:
    numbers that are not finite, and [undefined] inside arrays, come back as
    [null]. *)
Fixpoint json_value (v : value) : value :=
  match v with
  | VUndefined => VNull
  | VNum (Fin q) => VNum (Fin q)
  | VNum _ => VNull
  | VArr l => VArr (List.map json_value l)
  | _ => v
  end.

(** [JSON.parse(JSON.stringify(o))]: properties holding [undefined] are
    left out. *)
Definition json_copy (o : obj) : obj :=
  omap (fun v => match v with
                 | VUndefined => None
                 | _ => Some (json_value v)
                 end) o.

(** ** Errors and results *)

(** What the class throws, by the place that throws it. *)
#[warnings="-register-all"]
Inductive error :=
| ExpectedString                      (* TypeError, [#countTokens] *)
| ExpectedNonemptyString              (* TypeError, [#checkNonemptyString] *)
| EmptyString                         (* [#checkNonemptyString] *)
| ExpectedModelName                   (* TypeError, [createBody] *)
| ModelNotConfigured (model : string) (* [createBody]: known to OpenAI only *)
| ModelUnknown (model : string)       (* [createBody] *)
| QueryTooBig (tokens : number) (limit : Z)
                                      (* [#adjustMaxExpectedResponseTokens] *)
| HistoryCount (turns : nat) (total : Z)
                                      (* [countHistoryTokens] *)
| ApiError (status : Z) (type message : string)
                                      (* [#makeApiCall], the API answered with an error *)
| RequestFailed (cause : option error)
                                      (* [#makeApiCall], anything else before the response *)
| EmptyResponse                       (* [#makeApiCall] *)
| ParseFailed (cause : error)         (* [#makeApiCall], while reading the response *)
| HostTypeError (what : string).      (* TypeError raised by the language itself *)

(** A call either returns or throws. *)
Inductive outcome (A : Type) :=
| Returns (a : A)
| Throws (e : error).
Arguments Returns {A} a.
Arguments Throws {A} e.

(** A settled promise. *)
Inductive promise (A : Type) :=
| Resolved (a : A)
| Rejected (e : error).
Arguments Resolved {A} a.
Arguments Rejected {A} e.

(** What an [async] function makes of the outcome of its body. *)
Definition settle {A} (o : outcome A) : promise A :=
  match o with
  | Returns a => Resolved a
  | Throws e => Rejected e
  end.

(** ** The catalog *)

(** The two request shapes of the table: [method], [extractContent],
    [extractResponse] and [getFinishReason] come together. *)
Inductive api := createChatCompletion | createCompletion.

(** An entry of [models].  The base models carry neither [params] nor the
    request functions; no entry has a [name] or a [max] property. *)
Record model := {
  family : string;
  token_limit : Z;
  usage : option string;
  params : option (list string);
  method : option api
}.

Abbreviation catalog := (list (string * model)).

Definition chat_params : list string :=
  ["frequency_penalty"; "presence_penalty"; "max_tokens"; "stop"; "stream"; "n";
   "top_p"; "temperature"; "logit_bias"; "user"].

Definition completion_params : list string :=
  ["suffix"; "frequency_penalty"; "presence_penalty"; "max_tokens"; "stop";
   "stream"; "n"; "top_p"; "temperature"; "logit_bias"; "logprobs"; "echo";
   "best_of"; "user"].

(** The table as the class declares it. *)
Definition default_models : catalog :=
  [ ("gpt-4",
     {| family := "GPT-4"; token_limit := 4096; usage := None;
        params := Some chat_params; method := Some createChatCompletion |});
    ("gpt-3.5-turbo",
     {| family := "GPT-3.5"; token_limit := 4096; usage := Some "chat";
        params := Some chat_params; method := Some createChatCompletion |});
    ("text-davinci-003",
     {| family := "GPT-3.5"; token_limit := 4096; usage := Some "query";
        params := Some completion_params; method := Some createCompletion |});
    ("davinci",
     {| family := "GPT-3"; token_limit := 2048; usage := Some "fine-tune";
        params := None; method := None |});
    ("curie",
     {| family := "GPT-3"; token_limit := 2048; usage := Some "fine-tune";
        params := None; method := None |}) ].

(** [Object.keys(models)] *)
Definition keys (ms : catalog) : list string := ms.*1.

(** [models[name]] *)
Fixpoint lookup_model (ms : catalog) (name : string) : option model :=
  match ms with
  | [] => None
  | (k, m) :: ms' => if String.eqb k name then Some m else lookup_model ms' name
  end.

(** The names every object literal inherits from [Object.prototype]. *)
Definition inherited : list string :=
  ["constructor"; "__defineGetter__"; "__defineSetter__"; "hasOwnProperty";
   "__lookupGetter__"; "__lookupSetter__"; "isPrototypeOf"; "propertyIsEnumerable";
   "toString"; "valueOf"; "__proto__"; "toLocaleString"].

(** [name in models]: the operator follows the prototype chain, so it holds
    of the keys of the table and of the inherited names.  [models[name]] is
    an entry only for a key; for an inherited name it is a function (or the
    prototype itself) on which every property of an entry is [undefined],
    and [lookup_model] has [None] for it as for a name that is absent. *)
Definition in_models (ms : catalog) (name : string) : bool :=
  match lookup_model ms name with
  | Some _ => true
  | None => bool_decide (name ∈ inherited)
  end.

(** ** The instance *)

(** A record of [history]. [turn_summary] is the property [summary] that the
    per-turn gloss attaches later. *)
Record turn := {
  input : string;
  input_tokens : Z;
  summarized : bool;
  output : string;
  output_tokens : Z;
  turn_summary : option string
}.

Record names_t := { names_user : string; names_assistant : string }.

Record ChatGPT := {
  models : catalog;
  names : names_t;
  conf : obj;                         (* [#conf] *)
  history : list turn;
  summary : string;
  summarize_token_cutoff : Z;
  summarize_token_target : Z;
  engines : option (list string)      (* the ids [init] stored, or [null] *)
}.

Definition default_names : names_t :=
  {| names_user := "Human"; names_assistant := "AI" |}.

(** [names[role]]; the object has no property for the system role. *)
Definition name_of (n : names_t) (r : role) : string :=
  match r with
  | user => names_user n
  | assistant => names_assistant n
  | system => "undefined"
  end.

Definition tenth (n : Z) : number := Fin (Qred (n # 10)).

(** [#conf] as the class initialises it. *)
Definition default_conf (n : names_t) : obj :=
  <["max_tokens" := VNum (Int 1024)]>
  (<["top_p" := VNum (Int 1)]>
  (<["temperature" := VNum (Int 1)]>
  (<["frequency_penalty" := VNum (tenth 1)]>
  (<["presence_penalty" := VNum (tenth 6)]>
  (<["stop" := VArr [VStr (" " ++ names_user n ++ ":");
                     VStr (" " ++ names_assistant n ++ ":")]]>
  (<["stream" := VBool false]>
  (<["n" := VNum (Int 1)]>
  (<["logit_bias" := VNull]>
  (<["logprobs" := VNull]>
  (<["echo" := VBool false]>
  (<["best_of" := VNum (Int 1)]>
  (<["suffix" := VNull]> ∅)))))))))))).

(** [new ChatGPT(apiKey, name)] once the connection exists: a name given
    replaces the user's and the first stop token. *)
Definition new_ChatGPT (name : option string) : ChatGPT :=
  let n := match name with
           | Some s => if String.eqb s "" then default_names
                       else {| names_user := s; names_assistant := "AI" |}
           | None => default_names
           end in
  {| models := default_models;
     names := n;
     conf := default_conf n;
     history := [];
     summary := "";
     summarize_token_cutoff := 2048;
     summarize_token_target := 512;
     engines := None |}.

Definition set_conf (c : obj) (st : ChatGPT) : ChatGPT :=
  {| models := models st; names := names st; conf := c; history := history st;
     summary := summary st;
     summarize_token_cutoff := summarize_token_cutoff st;
     summarize_token_target := summarize_token_target st;
     engines := engines st |}.

Definition set_history (h : list turn) (st : ChatGPT) : ChatGPT :=
  {| models := models st; names := names st; conf := conf st; history := h;
     summary := summary st;
     summarize_token_cutoff := summarize_token_cutoff st;
     summarize_token_target := summarize_token_target st;
     engines := engines st |}.

Definition set_summary (s : string) (st : ChatGPT) : ChatGPT :=
  {| models := models st; names := names st; conf := conf st;
     history := history st; summary := s;
     summarize_token_cutoff := summarize_token_cutoff st;
     summarize_token_target := summarize_token_target st;
     engines := engines st |}.

(** ** Methods run on the instance

    A method reads and writes the instance and returns or throws; an
    exception does not undo the writes made before it. *)
Definition M (A : Type) : Type := ChatGPT -> outcome A * ChatGPT.

Definition ret {A} (a : A) : M A := fun st => (Returns a, st).
Definition throw {A} (e : error) : M A := fun st => (Throws e, st).
Definition bind {A B} (m : M A) (k : A -> M B) : M B :=
  fun st => match m st with
            | (Returns a, st') => k a st'
            | (Throws e, st') => (Throws e, st')
            end.
Definition lift {A} (o : outcome A) : M A := fun st => (o, st).
Definition get : M ChatGPT := fun st => (Returns st, st).
Definition modify (f : ChatGPT -> ChatGPT) : M unit := fun st => (Returns tt, f st).

Notation "x <- m ;; k" := (bind m (fun x => k))
  (at level 100, m at next level, right associativity).
Notation "m ;;; k" := (bind m (fun _ => k))
  (at level 100, right associativity).

(** [await p] inside a method *)
Definition await {A} (p : promise A) : M A :=
  match p with
  | Resolved a => ret a
  | Rejected e => throw e
  end.

(** ** The backend *)

(** One element of [response.data.choices]; a property that is missing or
    not a string is [None], and [finish_reason] is a string or [null]. *)
Record choice := {
  message_content : option string;
  text : option string;
  finish_reason : option string
}.

(** What [conn[method](body)] comes to.  A call that returns gives a
    response: one whose [data] can be read, given by the elements of
    [data.choices] (a [choices] that is missing reads like an empty one), or
    one that is [undefined] or has no [data].  A call that throws gives the
    value thrown: an exception carrying the API's [response], with a status
    and, in its [data], an [error] or none; an exception without a
    [response]; or [undefined] or [null]. *)
Inductive reply :=
| Response (choices : list choice)
| NoData
| ApiFailure (status : Z) (type message : string)
| ApiFailureNoError (status : Z)
| Failure
| FailureNullish.

Definition connection := api -> obj -> reply.

Section Methods.
Context `{Host}.

(** *** [#countTokens] *)

(** The largest [token_limit] of the catalog. *)
Definition max_token_limit (ms : catalog) : number :=
  math_max (List.map (fun km => Int (token_limit km.2)) ms).

(** [Math.floor(length / 4)] *)
Definition quarter (len : nat) : Z := Z.of_nat len / 4.

(** On a string: the number of tokens the encoder produced, unless the
    encoder threw or that number is zero or above every model's limit;
    then the [catch] block answers. *)
Definition countTokensStr (ms : catalog) (str : string) : Z :=
  match encode str with
  | Some encoded =>
      let tokens := Z.of_nat (length encoded) in
      if (tokens =? 0)%Z || num_gt (Int tokens) (max_token_limit ms)
      then quarter (String.length str)
      else tokens
  | None => quarter (String.length str)
  end.

(** On any value.  The type test throws inside the [try], so the [catch]
    block answers for every value that is not a string: it reads
    [str.length], which throws on [null] and [undefined], is a number on
    arrays, and is [undefined] on the rest. *)
Definition countTokens (ms : catalog) (str : value) : outcome number :=
  match str with
  | VStr s => Returns (Int (countTokensStr ms s))
  | VUndefined | VNull => Throws (HostTypeError "length")
  | VArr l => Returns (Int (quarter (length l)))
  | VBool _ | VNum _ | VMsg _ _ => Returns NaN
  end.

(** *** [#checkNonemptyString] *)
Definition checkNonemptyString (v : value) : outcome string :=
  match v with
  | VStr s => if String.eqb s "" then Throws EmptyString else Returns s
  | _ => Throws ExpectedNonemptyString
  end.

(** *** [configure] *)
Definition configure (c : obj) : M obj := fun st =>
  let oldConf := json_copy (conf st) in
  let requested := prop c "max_tokens" in
  let '(conf1, c1) :=
    if truthy requested then
      (* no entry has a [max] property *)
      let lim := math_max (List.map (fun _ => ToNumber VUndefined) (models st)) in
      if js_gt requested lim
      then (conf st, delete "max_tokens" c)
      else (<["max_tokens" := requested]> (conf st), delete "max_tokens" c)
    else (conf st, c) in
  (Returns oldConf, set_conf (assign conf1 c1) st).

(** *** [createBody] *)

(** The loop over the model's [params]. *)
Definition copy_params (ps : list string) (persisted body : obj) : obj :=
  fold_left (fun b p =>
               match persisted !! p with
               | Some VNull | None => b
               | Some v => <[p := v]> b
               end) ps body.

(** A name the catalog only inherits passes the first test; the temporary
    configuration is then stored, and the loop throws on the [params] the
    name does not have.  The test on [engines] is only reached by a name
    that is not inherited, so the keys [init] stored decide it. *)
Definition createBody (model_name : value) (tempConf : option obj) : M obj :=
  match model_name with
  | VStr name =>
      st <- get ;;
      if in_models (models st) name then
        oldConf <- match tempConf with
                   | Some tc => (old <- configure tc ;; ret (Some old))
                   | None => ret None
                   end ;;
        st1 <- get ;;
        match lookup_model (models st1) name with
        | Some {| params := Some ps |} =>
            let body := copy_params ps (conf st1) {[ "model" := VStr name ]} in
            match oldConf with
            | Some old => modify (fun s => set_conf (assign (conf s) old) s)
            | None => ret tt
            end ;;;
            ret body
        | _ => throw (HostTypeError "params is not iterable")
        end
      else
        match engines st with
        | Some ids => if bool_decide (name ∈ ids)
                      then throw (ModelNotConfigured name)
                      else throw (ModelUnknown name)
        | None => throw (ModelUnknown name)
        end
  | _ => throw ExpectedModelName
  end.

(** *** [#getModelName] *)
Definition getModelName (tempConf : option obj) (wanted : string) : M value :=
  st <- get ;;
  let requested :=
    match tempConf with
    | Some tc =>
        if truthy (prop tc "model") && in_models (models st) (ToString (prop tc "model"))
        then Some (prop tc "model") else None
    | None => None
    end in
  match requested with
  | Some m => ret m
  | None =>
      let defaultForUsage :=
        List.find (fun k => match lookup_model (models st) k with
                            | Some {| usage := Some u |} => String.eqb u wanted
                            | _ => false
                            end) (keys (models st)) in
      match defaultForUsage with
      | Some k => if truthy (VStr k) then ret (VStr k)
                  else
                    (* [models[keys[0]].name] with at least one key *)
                    ret VUndefined
      | None =>
          match keys (models st) with
          | _ :: _ => ret VUndefined           (* no entry has a [name] *)
          | [] => throw (HostTypeError "name of undefined")
          end
      end
  end.

(** *** [#formatMessage] *)
Definition formatMessage (format : string) (r : role) (content : string) : M value :=
  st <- get ;;
  if String.eqb format "chat" then ret (VMsg r content)
  else ret (VStr (" " ++ name_of (names st) r ++ ": " ++ content ++ nl)).

(** *** [#getUnsummorizedHistory] *)

(** The loop from index [i - 1] down to [0]. *)
Fixpoint unsummorized_below (h : list turn) (i : nat) : list nat :=
  match i with
  | O => []
  | S j =>
      match h !! j with
      | Some {| summarized := false |} => j :: unsummorized_below h j
      | _ => unsummorized_below h j
      end
  end.

(** The result holds references: the indices of the records, most recent
    first. *)
Definition getUnsummorizedHistory : M (list nat) :=
  st <- get ;; ret (unsummorized_below (history st) (length (history st))).

(** The records an array of references holds. [None] stands for
    [this.history] itself. *)
Definition deref (st : ChatGPT) (h : option (list nat)) : list turn :=
  match h with
  | Some refs => omap (fun i => history st !! i) refs
  | None => history st
  end.

(** [history.length] *)
Definition turns_length (st : ChatGPT) (h : option (list nat)) : nat :=
  match h with
  | Some refs => length refs
  | None => length (history st)
  end.

(** *** [countHistoryTokens] *)
Definition countHistoryTokens (h : option (list nat)) : M Z :=
  st <- get ;;
  let total :=
    fold_left (fun total record => total + (input_tokens record + output_tokens record))
              (history st) 0 in
  if (total >? 1000000)%Z || (negb (Nat.eqb (turns_length st h) 0) && (total =? 0)%Z)
  then throw (HistoryCount (turns_length st h) total)
  else ret total.

(** *** [#formatHistory] *)
Fixpoint formatPairs (format : string) (h : list turn) : M (list value) :=
  match h with
  | [] => ret []
  | t :: h' =>
      u <- formatMessage format user (input t) ;;
      a <- formatMessage format assistant (output t) ;;
      rest <- formatPairs format h' ;;
      ret (u :: a :: rest)
  end.

Definition formatHistory (format : string) (h : option (list nat)) : M (list value) :=
  st <- get ;;
  formated <- formatPairs format (deref st h) ;;
  ret (rev formated).

(** *** The request functions of the catalog *)

(** [m => `${m.role}: ${m.content}\n`] *)
Definition render_message (m : value) : outcome string :=
  match m with
  | VMsg r content => Returns (role_name r ++ ": " ++ content ++ nl)
  | VUndefined | VNull => Throws (HostTypeError "role")
  | _ => Returns ("undefined: undefined" ++ nl)
  end.

Fixpoint render_messages (l : list value) : outcome (list string) :=
  match l with
  | [] => Returns []
  | m :: l' =>
      match render_message m with
      | Returns s =>
          match render_messages l' with
          | Returns ss => Returns (s :: ss)
          | Throws e => Throws e
          end
      | Throws e => Throws e
      end
  end.

(** [model.extractContent(body)] *)
Definition extractContent (a : api) (body : obj) : outcome value :=
  match a with
  | createChatCompletion =>
      match prop body "messages" with
      | VArr l =>
          match render_messages l with
          | Returns ss => Returns (VStr (join nl ss))
          | Throws e => Throws e
          end
      | _ => Throws (HostTypeError "map")
      end
  | createCompletion => Returns (prop body "prompt")
  end.

(** [model.extractResponse(response)] *)
Definition extractResponse (a : api) (choices : list choice) : outcome string :=
  match choices with
  | [] => Throws (HostTypeError "choices[0]")
  | c :: _ =>
      match (match a with
             | createChatCompletion => message_content c
             | createCompletion => text c
             end) with
      | Some s => Returns (trim s)
      | None => Throws (HostTypeError "trim")
      end
  end.

(** [model.getFinishReason(response)], once [choices[0]] is known to
    exist *)
Definition getFinishReason (choices : list choice) : option string :=
  match choices with
  | c :: _ => finish_reason c
  | [] => None
  end.

(** *** [#adjustMaxExpectedResponseTokens] *)

(** The body is changed in place; the method returns the body as it
    leaves it. *)
Definition adjustMaxExpectedResponseTokens (body : obj) : M obj :=
  st <- get ;;
  match lookup_model (models st) (ToString (prop body "model")) with
  | Some {| token_limit := limit; method := Some a |} =>
      content <- lift (extractContent a body) ;;
      tokens <- lift (countTokens (models st) content) ;;
      if num_gt tokens (Int limit) then throw (QueryTooBig tokens limit)
      else
        match body !! "max_tokens" with
        | Some max_tokens =>
            if js_gt (js_add (VNum tokens) max_tokens) (Int limit)
            then ret (<["max_tokens" := VNum (num_sub (Int limit) tokens)]> body)
            else ret body
        | None => ret body
        end
  | _ => throw (HostTypeError "extractContent")
  end.

(** *** [#makeApiCall] *)

Definition warning (reason : option string) : string :=
  nl ++ "[WARNING: stopped generating output because '"
     ++ default "null" reason ++ "']".

(** The second [try] block: reading the response. *)
Definition parse_response (a : api) (choices : list choice) : promise string :=
  match extractResponse a choices with
  | Returns out =>
      if Nat.eqb (String.length out) 0 then Rejected (ParseFailed EmptyResponse)
      else
        match getFinishReason choices with
        | Some "stop" => Resolved out
        | reason => Resolved (out ++ warning reason)
        end
  | Throws e => Rejected (ParseFailed e)
  end.

(** The method is [async] and writes nothing on the instance: its result
    is the promise it settles.  The two [catch] blocks read the value they
    caught before they build the error they mean to throw, and what such a
    read throws leaves the method as it is: [e.response] of a value that is
    no object, [error.type] without an [error], and [response.data.choices]
    without a [data]. *)
Definition makeApiCall (conn : connection) (body : obj) (st : ChatGPT) : promise string :=
  match adjustMaxExpectedResponseTokens body st with
  | (Returns body', _) =>
      match lookup_model (models st) (ToString (prop body "model")) with
      | Some {| method := Some a |} =>
          match conn a body' with
          | Response choices => parse_response a choices
          | NoData => Rejected (HostTypeError "data")
          | ApiFailure status type message => Rejected (ApiError status type message)
          | ApiFailureNoError _ => Rejected (HostTypeError "error")
          | Failure => Rejected (RequestFailed None)
          | FailureNullish => Rejected (HostTypeError "response")
          end
      | _ => Rejected (RequestFailed (Some (HostTypeError "method")))
      end
  | (Throws e, _) => Rejected (RequestFailed (Some e))
  end.

(** *** [query] *)

(** Not [async]: what goes wrong before the call is thrown, not
    rejected. *)
Definition query (input_v : value) (tempConf : option obj) (conn : connection)
  : M (promise string) :=
  prompt <- lift (checkNonemptyString input_v) ;;
  model_name <- getModelName tempConf "query" ;;
  body <- createBody model_name tempConf ;;
  st <- get ;;
  ret (makeApiCall conn (<["prompt" := VStr prompt]> body) st).

(** *** [#summarizeSingleInputOutput] *)
Definition summarizeSingleInputOutput (question answer : string) (conn : connection)
  : M (promise string) :=
  let prompt :=
    "Please summarize this question and answer in 1 sentence each. Do not add flurishes and try to keep "
    ++ "it short while including the relevant information. If the question or answer is short enough just return the "
    ++ "original string unaltered. Respond on 2 separate lines."
    ++ nl ++ nl ++ "Q: " ++ question ++ nl ++ nl ++ "A: " ++ answer in
  let c : obj := <["temperature" := VNum (Fin (Qred (4 # 10)))]>
                 (<["max_tokens" := VNum (Int 50)]> ∅) in
  p <- query (VStr prompt) (Some c) conn ;;
  ret (match p with
       | Resolved t => Resolved (trim t)
       | Rejected e => Rejected e
       end).

(** *** [summarize] *)

(** The body of the method up to the call of [query]; [None] for the
    first argument is a call without a history. *)
Definition summarize_request (h : option (list nat)) (tokens : option Z)
    (conn : connection) : M (promise string) :=
  let tokens := match h with Some _ => tokens | None => None end in
  _ <- match tokens with
       | Some t => if (t =? 0)%Z then countHistoryTokens h else ret t
       | None => countHistoryTokens h
       end ;;
  st <- get ;;
  let who := "conversation between yourself (" ++ names_assistant (names st)
             ++ ") and a human (" ++ names_user (names st) ++ ")" in
  let prompt :=
    if truthy (VStr (summary st))
    then "Please update the following summary of a " ++ who
         ++ " with the new messages which will follow." ++ nl ++ nl
         ++ "Existing summary:" ++ nl ++ summary st ++ nl ++ nl
         ++ "New messages:" ++ nl
    else "Please summarize the following " ++ who ++ ":" ++ nl ++ nl in
  formated <- formatHistory "query" h ;;
  let prompt := ToString (js_add (VStr prompt) (VArr formated)) in
  query (VStr prompt)
        (Some (<["max_tokens" := VNum (Int (summarize_token_target st))]> ∅)) conn.

(** [obj.summarized = true] *)
Definition mark_summarized (t : turn) : turn :=
  {| input := input t; input_tokens := input_tokens t; summarized := true;
     output := output t; output_tokens := output_tokens t;
     turn_summary := turn_summary t |}.

(** The callback of [then], run on the instance as it is when the
    response arrives.  It writes through the references it was given;
    without a history it walks [this.history] itself. *)
Definition summarize_then (h : option (list nat)) (answer : string) : M string :=
  st <- get ;;
  let a := names_assistant (names st) in
  let s := if startsWith answer a then slice (String.length a + 1) answer else answer in
  modify (set_summary s) ;;;
  modify (fun st =>
            match h with
            | Some refs =>
                set_history (fold_left (fun hist i => alter mark_summarized i hist)
                                       refs (history st)) st
            | None => set_history (mark_summarized <$> history st) st
            end) ;;;
  ret s.

(** The whole method when nothing else runs between the request and the
    response. *)
Definition summarize (h : option (list nat)) (tokens : option Z) (conn : connection)
  : ChatGPT -> promise string * ChatGPT := fun st =>
  match summarize_request h tokens conn st with
  | (Returns (Resolved answer), st1) =>
      let '(r, st2) := summarize_then h answer st1 in (settle r, st2)
  | (Returns (Rejected e), st1) => (Rejected e, st1)
  | (Throws e, st1) => (Rejected e, st1)
  end.

(** *** [#summarizeConversationIfCutoffExceeded] *)

(** The method starts the summary and returns nothing; the callback of
    the summary runs later. *)
Definition summarizeConversationIfCutoffExceeded (force : bool) (conn : connection)
  : M unit :=
  refs <- getUnsummorizedHistory ;;
  if negb (Nat.eqb (length refs) 0) then
    tokens <- countHistoryTokens (Some refs) ;;
    st <- get ;;
    if force || (tokens >? summarize_token_cutoff st)%Z
    then fun st => (Returns tt, (summarize_request (Some refs) (Some tokens) conn st).2)
    else ret tt
  else ret tt.

(** *** [chat] *)

(** The three statements that fill [body.messages]. *)
Definition chat_messages (question : string) : M (list value) :=
  st <- get ;;
  let persona := if truthy (VStr (summary st)) then summary st
                 else "You are a helpful assistant." in
  refs <- getUnsummorizedHistory ;;
  formated <- formatHistory "chat" (Some refs) ;;
  ret ([VMsg system persona] ++ formated ++ [VMsg user question])%list.

Definition chat_body (input_v : value) (tempConf : option obj) (conn : connection)
  : M string :=
  question <- lift (checkNonemptyString input_v) ;;
  st0 <- get ;;
  let question_tokens := countTokensStr (models st0) question in
  let tempConf := Some (default ∅ tempConf) in
  model_name <- getModelName tempConf "chat" ;;
  body <- createBody model_name tempConf ;;
  messages <- chat_messages question ;;
  st1 <- get ;;
  answer <- await (makeApiCall conn (<["messages" := VArr messages]> body) st1) ;;
  modify (fun st =>
            set_history (history st ++
                           [{| input := question; input_tokens := question_tokens;
                               summarized := false; output := answer;
                               output_tokens := countTokensStr (models st) answer;
                               turn_summary := None |}])%list st) ;;;
  _ <- summarizeSingleInputOutput question answer conn ;;
  _ <- summarizeConversationIfCutoffExceeded false conn ;;
  (* the call above returned [undefined], and [.catch] is read from it *)
  throw (HostTypeError "catch").

Definition chat (input_v : value) (tempConf : option obj) (conn : connection)
  : ChatGPT -> promise string * ChatGPT := fun st =>
  let '(r, st') := chat_body input_v tempConf conn st in (settle r, st').

End Methods.

(** ** Start-up *)

(** What [init] is rejected with. *)
Inductive init_error :=
| FailedToInit (message : string)     (* the listing was refused by the API *)
| UnexpectedFormat                    (* the listing could not be read *)
| ReferenceError (name : string)      (* an identifier without a binding *)
| InitTypeError (what : string).      (* TypeError raised by the language *)

(** The value of [response.data.data] for a value bound to [response]: an
    array whose elements are engines with an [id], [None] standing for an
    element from which [id] cannot be read, or something that cannot be
    iterated. *)
Inductive listing :=
| Engines (ids : list (option string))
| NotEngines.

(** What [conn.listEngines()] comes to: a response, an exception that has a
    [response] property (with the message found under it, if one is), an
    exception object without that property, or a thrown primitive. *)
Inductive listing_reply :=
| Listed (l : listing)
| ListRefused (message : option string)
| ListFailed
| ListFailedPrimitive.

(** The loop [for (let eng of response.data.data) this.engines[eng.id] = eng]
    from the ids already stored: the ids stored when the loop ends, and
    whether it ended by an exception. *)
Fixpoint store_engines (ids : list (option string)) (stored : list string)
  : list string * bool :=
  match ids with
  | [] => (stored, false)
  | Some id :: ids' => store_engines ids' (stored ++ [id])%list
  | None :: _ => (stored, true)
  end.

Definition set_engines (e : option (list string)) (st : ChatGPT) : ChatGPT :=
  {| models := models st; names := names st; conf := conf st; history := history st;
     summary := summary st;
     summarize_token_cutoff := summarize_token_cutoff st;
     summarize_token_target := summarize_token_target st;
     engines := e |}.

(** [init].  The method assigns to and reads an identifier [response] that
    the module never declares.  [global] is what that identifier is bound
    to outside the module when the method runs: [None] when nothing is, in
    which case the assignment, in the strict mode of a module, throws once
    its right-hand side has been awaited, and each later read throws too.
    The result is the settled promise ([None] for resolved), the instance
    and the binding afterwards. *)
Definition init (global : option listing) (reply : listing_reply) (st : ChatGPT)
  : option init_error * ChatGPT * option listing :=
  (* the first [try] and its [catch] *)
  let first : option init_error * option listing :=
    match reply with
    | Listed l =>
        match global with
        | Some _ => (None, Some l)
        | None => (None, None)        (* ReferenceError, caught and dropped *)
        end
    | ListRefused (Some message) => (Some (FailedToInit message), global)
    | ListRefused None => (Some (InitTypeError "message"), global)
    | ListFailed => (None, global)
    | ListFailedPrimitive => (Some (InitTypeError "in"), global)
    end in
  match first with
  | (Some e, g) => (Some e, st, g)
  | (None, g) =>
      (* the second [try]: [this.engines = {}] comes first *)
      match g with
      | None => (Some (ReferenceError "response"), set_engines (Some []) st, g)
      | Some (Engines ids) =>
          let '(stored, failed) := store_engines ids [] in
          (if failed then Some UnexpectedFormat else None,
           set_engines (Some stored) st, g)
      | Some NotEngines => (Some UnexpectedFormat, set_engines (Some []) st, g)
      end
  end.

(** ** The command line *)

(** The quotation mark *)
Definition dquote : ascii := ascii_of_nat 34.

(** The longest prefix of characters that satisfy [p], and the rest. *)
Fixpoint span (p : ascii -> bool) (s : string) : string * string :=
  match s with
  | String c s' =>
      if p c then let '(run, rest) := span p s' in (String c run, rest)
      else (String.EmptyString, s)
  | String.EmptyString => (String.EmptyString, String.EmptyString)
  end.

Definition not_dquote (c : ascii) : bool := negb (Ascii.eqb c dquote).
Definition not_space (c : ascii) : bool := negb (is_space c).

(** The first alternative of the pattern at the start of [s]: a quotation
    mark, one or more characters that are not one, a quotation mark. *)
Definition match_quoted (s : string) : option (string * string) :=
  match s with
  | String c s' =>
      if Ascii.eqb c dquote then
        match span not_dquote s' with
        | (String r run, String _ rest) =>
            Some (String c (String r run ++ String dquote ""), rest)
        | _ => None
        end
      else None
  | String.EmptyString => None
  end.

(** [input.match(regex)] for the pattern of [parseInput], with the flag
    [g]: at each position the quoted alternative is tried first, then a run
    of characters that are not white space; where neither matches, the scan
    moves on by one character.  Every step consumes a character, so
    [fuel] need not exceed the length of [s]. *)
Fixpoint scan (fuel : nat) (s : string) : list string :=
  match fuel with
  | O => []
  | S fuel' =>
      match s with
      | String.EmptyString => []
      | String c s' =>
          match match_quoted s with
          | Some (m, rest) => m :: scan fuel' rest
          | None =>
              if is_space c then scan fuel' s'
              else let '(run, rest) := span not_space s in run :: scan fuel' rest
          end
      end
  end.

(** [match.replace] of every quotation mark by nothing *)
Fixpoint strip_quotes (s : string) : string :=
  match s with
  | String c s' => if Ascii.eqb c dquote then strip_quotes s' else String c (strip_quotes s')
  | String.EmptyString => String.EmptyString
  end.

(** [parseInput]: the command and its arguments; [match] answers [null]
    when nothing matches, and iterating over it throws. *)
Definition parseInput (s : string) : outcome (string * list string) :=
  match List.map strip_quotes (scan (String.length s) s) with
  | [] => Throws (HostTypeError "null is not iterable")
  | cmd :: args => Returns (cmd, args)
  end.

(** ** The specification's own quantities *)

(** The estimate the specification names for the fallback:
    [ceil(length / 4)]. *)
Definition spec_fallback (len : nat) : Z := (Z.of_nat len + 3) / 4.

(** The total the specification names for a sequence of turns: the sum of
    [inputTokens + outputTokens] over the turns of that sequence. *)
Definition spec_tokensOf (l : list turn) : Z :=
  foldr (fun t acc => input_tokens t + output_tokens t + acc) 0 l.

(** ** Hosts and sessions for the examples *)

(** A tokenizer that makes one token of every character. *)
Definition chars_encoder (s : string) : option (list Z) :=
  Some (List.map (fun c => Z.of_nat (nat_of_ascii c)) (list_ascii_of_string s)).

(** A tokenizer that always throws. *)
Definition broken_encoder (s : string) : option (list Z) := None.

(** The examples never reach a coercion between numbers and strings; the two
    conversions answer as the language does on [NaN] and on text that is not
    a numeral. *)
Definition host_of (enc : string -> option (list Z)) : Host :=
  {| encode := enc;
     NumberToString := fun _ => "NaN";
     StringToNumber := fun _ => NaN |}.

(** A prompt of 4096 characters. *)
Definition prompt_4096 : string := string_of_list_ascii (repeat "a"%char 4096).

(** A completion request whose prompt fills the model's limit exactly. *)
Definition body_at_limit : obj :=
  <["prompt" := VStr prompt_4096]>
  (<["max_tokens" := VNum (Int 16)]> {[ "model" := VStr "text-davinci-003" ]}).

(** A completion request of 8 prompt tokens. *)
Definition body_small (requested : Z) : obj :=
  <["prompt" := VStr "abcdefgh"]>
  (<["max_tokens" := VNum (Int requested)]> {[ "model" := VStr "text-davinci-003" ]}).

Definition turn_of (question answer : string) (question_tokens answer_tokens : Z)
    (done : bool) : turn :=
  {| input := question; input_tokens := question_tokens; summarized := done;
     output := answer; output_tokens := answer_tokens; turn_summary := None |}.

(** A session with one answered turn, not summarized yet. *)
Definition session_one_turn : ChatGPT :=
  set_history [turn_of "hi" "hello" 1 2 false] (new_ChatGPT None).

(** A session whose first turn went into the summary and whose second did
    not. *)
Definition session_two_turns : ChatGPT :=
  set_summary "They greeted each other."
    (set_history [turn_of "hi" "hello" 10 20 true;
                  turn_of "bye" "see you" 1 2 false] (new_ChatGPT None)).

Definition set_models (ms : catalog) (st : ChatGPT) : ChatGPT :=
  {| models := ms; names := names st; conf := conf st; history := history st;
     summary := summary st;
     summarize_token_cutoff := summarize_token_cutoff st;
     summarize_token_target := summarize_token_target st;
     engines := engines st |}.

(** The catalog after [delete gpt.models['gpt-3.5-turbo']]: no entry is
    left whose usage is chat. *)
Definition models_without_chat : catalog :=
  List.filter (fun km => negb (String.eqb km.1 "gpt-3.5-turbo")) default_models.

Definition session_without_chat : ChatGPT :=
  set_models models_without_chat (new_ChatGPT None).

(** A session whose catalog was replaced by two completion models with small
    limits. *)
Definition small_models : catalog :=
  [ ("tiny", {| family := "test"; token_limit := 4; usage := Some "query";
                params := Some completion_params; method := Some createCompletion |});
    ("small", {| family := "test"; token_limit := 100; usage := Some "query";
                 params := Some completion_params; method := Some createCompletion |}) ].

Definition session_small_models : ChatGPT :=
  set_models small_models (new_ChatGPT None).

(** A request of 8 prompt tokens for the model of limit 4. *)
Definition body_too_big : obj :=
  <["prompt" := VStr "abcdefgh"]>
  (<["max_tokens" := VNum (Int 16)]> {[ "model" := VStr "tiny" ]}).

(** The temporary configuration of the command line client:
    [{ model: process.env.MODEL }]. *)
Definition override_model : obj := {[ "model" := VStr "gpt-4" ]}.

(** A temporary configuration that names the end user for one call. *)
Definition override_user : obj := {[ "user" := VStr "bob" ]}.

(** A backend that cannot be reached. *)
Definition conn_down : connection := fun _ _ => Failure.

(** A backend that fails every request with a status and no [error] in the
    data of its response, as a gateway in front of the API does. *)
Definition conn_bad_gateway : connection := fun _ _ => ApiFailureNoError 502.

(** A backend that answers every request with one choice, whose text is
    [answer] and whose finish reason is [stop]. *)
Definition conn_answer (answer : string) : connection := fun _ _ =>
  Response [ {| message_content := Some answer; text := Some answer;
                finish_reason := Some "stop" |} ].



(** The entry of the table for [text-davinci-003]. *)
Definition text_davinci_003 : model :=
  {| family := "GPT-3.5"; token_limit := 4096; usage := Some "query";
     params := Some completion_params; method := Some createCompletion |}.

(** ** Views used in the statements *)

(** What [#formatMessage] returns for the names [n]. *)
Definition message_of (n : names_t) (format : string) (r : role) (content : string)
  : value :=
  if String.eqb format "chat" then VMsg r content
  else VStr (" " ++ name_of n r ++ ": " ++ content ++ nl).

(** The turns that are not summarized, oldest first. *)
Definition pending (h : list turn) : list turn :=
  List.filter (fun t => negb (summarized t)) h.

(** A reference is covered by the argument of [summarize] when it is in the
    array passed, or, without an array, whichever turn it refers to. *)
Definition covered (h : option (list nat)) (i : nat) : Prop :=
  match h with
  | Some refs => i ∈ refs
  | None => True
  end.

(** What the callback of [summarize] makes of the text it receives. *)
Definition without_label (label answer : string) : string :=
  if startsWith answer label then slice (String.length label + 1) answer else answer.

(** The request [#makeApiCall] hands to the backend for a body: the method
    of the model and the body as the adjustment leaves it; none when the
    adjustment throws. *)
Definition request `{Host} (body : obj) (st : ChatGPT) : option (api * obj) :=
  match adjustMaxExpectedResponseTokens body st with
  | (Returns body', _) =>
      match lookup_model (models st) (ToString (prop body "model")) with
      | Some {| method := Some a |} => Some (a, body')
      | _ => None
      end
  | (Throws _, _) => None
  end.

(** The request a call of [query] hands to the backend; none when the call
    throws before. *)
Definition query_request `{Host} (input_v : value) (tempConf : option obj)
    (st : ChatGPT) : option (api * obj) :=
  match (prompt <- lift (checkNonemptyString input_v) ;;
         model_name <- getModelName tempConf "query" ;;
         body <- createBody model_name tempConf ;;
         st' <- get ;;
         ret (request (<["prompt" := VStr prompt]> body) st')) st with
  | (Returns r, _) => r
  | (Throws _, _) => None
  end.

(** The request a call of [chat] hands to the backend for the answer; none
    when the call ends before. *)
Definition chat_request `{Host} (input_v : value) (tempConf : option obj)
    (st : ChatGPT) : option (api * obj) :=
  match (question <- lift (checkNonemptyString input_v) ;;
         model_name <- getModelName (Some (default ∅ tempConf)) "chat" ;;
         body <- createBody model_name (Some (default ∅ tempConf)) ;;
         messages <- chat_messages question ;;
         st' <- get ;;
         ret (request (<["messages" := VArr messages]> body) st')) st with
  | (Returns r, _) => r
  | (Throws _, _) => None
  end.

(** A reply that one of the [catch] blocks of [#makeApiCall] cannot read. *)
Definition unreadable (r : reply) : bool :=
  match r with
  | NoData | ApiFailureNoError _ | FailureNullish => true
  | Response _ | ApiFailure _ _ _ | Failure => false
  end.

(** A method that throws whatever the instance. *)
Definition never_returns {A} (m : M A) : Prop :=
  forall st, exists e st', m st = (Throws e, st').

(** [v === null] *)
Definition is_null (v : value) : bool :=
  match v with
  | VNull => true
  | _ => false
  end.

(** The configuration the loop of [createBody] reads: [#conf] with the
    temporary configuration, if any, assigned over it. *)
Definition merged_conf (tempConf : option obj) (st : ChatGPT) : obj :=
  match tempConf with
  | Some tc => tc ∪ conf st
  | None => conf st
  end.

(** Two records of the history that differ at most by the flag of the
    second being on where that of the first is off. *)
Definition same_turn_but_flag (t t' : turn) : Prop :=
  input t' = input t /\ output t' = output t
  /\ input_tokens t' = input_tokens t /\ output_tokens t' = output_tokens t
  /\ turn_summary t' = turn_summary t
  /\ (summarized t = true -> summarized t' = true).


(** The errors [#makeApiCall] wraps what went wrong in. *)
Definition wrapped (e : error) : Prop :=
  match e with
  | RequestFailed _ | ApiError _ _ _ | ParseFailed _ => True
  | _ => False
  end.

(** The record [chat] pushes for a question and its answer. *)
Definition new_turn (ms : catalog) `{Host} (question answer : string) : turn :=
  {| input := question; input_tokens := countTokensStr ms question;
     summarized := false; output := answer;
     output_tokens := countTokensStr ms answer; turn_summary := None |}.

(** Every character of [s] satisfies [p]. *)
Fixpoint all_chars (p : ascii -> bool) (s : string) : bool :=
  match s with
  | String c s' => p c && all_chars p s'
  | String.EmptyString => true
  end.

(** ** Proof support *)

Arguments Int : simpl never.
Arguments num_gt : simpl never.
Arguments num_add : simpl never.
Arguments num_sub : simpl never.

(** Unfolding the plumbing of a method. *)
Ltac run := unfold bind, get, ret, throw, lift, modify, await in *; simpl in *.

(** ** Arithmetic on integral numbers *)

Lemma Qgt_bool_inject (a b : Z) : Qgt_bool (inject_Z a) (inject_Z b) = (b <? a)%Z.
Proof.
  unfold Qgt_bool, Qle_bool; simpl. rewrite !Z.mul_1_r.
  rewrite Z.ltb_antisym. reflexivity.
Qed.

Lemma num_gt_Int (a b : Z) : num_gt (Int a) (Int b) = (b <? a)%Z.
Proof. apply Qgt_bool_inject. Qed.

Lemma num_add_Int (a b : Z) : num_add (Int a) (Int b) = Int (a + b).
Proof.
  unfold num_add, Int. f_equal.
  rewrite <- (inject_Z_Qred (a + b)). apply Qred_complete.
  rewrite inject_Z_plus. reflexivity.
Qed.

Lemma num_sub_Int (a b : Z) : num_sub (Int a) (Int b) = Int (a - b).
Proof.
  unfold num_sub, Int. f_equal.
  rewrite <- (inject_Z_Qred (a - b)). apply Qred_complete.
  unfold Qminus. rewrite <- inject_Z_opp, <- inject_Z_plus. reflexivity.
Qed.

(** The largest limit of a catalog is minus infinity for the empty catalog
    and otherwise the limit of one of its models, not below any other. *)
Lemma max_token_limit_cases (ms : catalog) :
  (ms = [] /\ max_token_limit ms = NegInf) \/
  (exists z, max_token_limit ms = Int z
             /\ (exists km, In km ms /\ token_limit km.2 = z)
             /\ (forall km, In km ms -> (token_limit km.2 <= z)%Z)).
Proof.
  induction ms as [|km ms IH]; [left; split; reflexivity|].
  right. unfold max_token_limit in *. simpl.
  destruct IH as [[-> E]|(z & E & (km' & Hin & Hz) & Hmax)].
  - simpl. exists (token_limit km.2). split; [reflexivity|].
    split; [exists km; split; [left|]; reflexivity|].
    intros km0 [<-|[]]. lia.
  - rewrite E. unfold Int at 1 2. simpl num_max.
    rewrite Qgt_bool_inject.
    destruct (token_limit km.2 <? z)%Z eqn:Hlt.
    + apply Z.ltb_lt in Hlt. exists z. split; [reflexivity|]. split.
      * exists km'. split; [right; assumption|assumption].
      * intros km0 [<-|Hin0]; [lia|auto].
    + apply Z.ltb_ge in Hlt. exists (token_limit km.2). split; [reflexivity|]. split.
      * exists km. split; [left|]; reflexivity.
      * intros km0 [<-|Hin0]; [lia|]. specialize (Hmax _ Hin0). lia.
Qed.

(** A count is above the largest limit exactly when it is above the limit of
    every model. *)
Lemma above_max_token_limit (ms : catalog) (n : Z) :
  num_gt (Int n) (max_token_limit ms) = true <->
  (forall km, In km ms -> (token_limit km.2 < n)%Z).
Proof.
  destruct (max_token_limit_cases ms) as [[-> E]|(z & E & (km & Hin & Hz) & Hmax)].
  - rewrite E. simpl. split; [intros _ km []|reflexivity].
  - rewrite E, num_gt_Int, Z.ltb_lt. split.
    + intros Hlt km0 Hin0. specialize (Hmax _ Hin0). lia.
    + intros Hall. specialize (Hall _ Hin). lia.
Qed.

(** ** Token counting *)

Section TokenCounting.
Context `{Host}.

(** On a string the count never throws: whatever the encoder does, a
    number comes back. *)
Lemma countTokens_string (ms : catalog) (s : string) :
  countTokens ms (VStr s) = Returns (Int (countTokensStr ms s)).
Proof. reflexivity. Qed.

Lemma countTokensStr_encoder_throws (ms : catalog) (s : string) :
  encode s = None -> countTokensStr ms s = quarter (String.length s).
Proof. intros E. unfold countTokensStr. rewrite E. reflexivity. Qed.

Lemma countTokensStr_bad_count (ms : catalog) (s : string) (encoded : list Z) :
  encode s = Some encoded ->
  length encoded = 0%nat
  \/ (forall km, In km ms -> (token_limit km.2 < Z.of_nat (length encoded))%Z) ->
  countTokensStr ms s = quarter (String.length s).
Proof.
  intros E Hbad. unfold countTokensStr. rewrite E. cbv zeta.
  destruct Hbad as [H0|Habove].
  - rewrite H0. reflexivity.
  - apply (proj2 (above_max_token_limit ms _)) in Habove.
    rewrite Habove, orb_true_r. reflexivity.
Qed.

(** C4 (as amended): for every string, when the encoder throws, or yields
    no token at all, or yields more tokens than the limit of every model of
    the catalog, the count is [floor(length / 4)], returned and not
    thrown. *)
Theorem countTokens_fallback (ms : catalog) (s : string) :
  encode s = None
  \/ (exists encoded, encode s = Some encoded
                      /\ (length encoded = 0%nat
                          \/ forall km, In km ms ->
                               (token_limit km.2 < Z.of_nat (length encoded))%Z)) ->
  countTokens ms (VStr s) = Returns (Int (Z.of_nat (String.length s) / 4)).
Proof.
  intros Hfail. rewrite countTokens_string. do 2 f_equal.
  destruct Hfail as [E|(encoded & E & Hbad)].
  - apply countTokensStr_encoder_throws, E.
  - eapply countTokensStr_bad_count; eassumption.
Qed.

(** A count the encoder produced and the guard accepted is returned as it
    is. *)
Lemma countTokensStr_encoder_ok (ms : catalog) (s : string) (encoded : list Z) (km : string * model) :
  encode s = Some encoded -> length encoded <> 0%nat ->
  In km ms -> (Z.of_nat (length encoded) <= token_limit km.2)%Z ->
  countTokensStr ms s = Z.of_nat (length encoded).
Proof.
  intros E Hne Hin Hle. unfold countTokensStr. rewrite E. cbv zeta.
  destruct (num_gt _ _) eqn:Hgt.
  - pose proof (proj1 (above_max_token_limit ms _) Hgt _ Hin). lia.
  - rewrite orb_false_r. destruct (Z.eqb_spec (Z.of_nat (length encoded)) 0); [lia|reflexivity].
Qed.

(** No value makes the count throw the error of its own type test: the
    test sits inside the [try] whose [catch] block answers. *)
Lemma countTokens_never_ExpectedString (ms : catalog) (v : value) :
  countTokens ms v <> Throws ExpectedString.
Proof. destruct v; discriminate. Qed.

(** C5 (what the code does): an array of eight elements is counted as two
    tokens, and a number as [NaN]; neither call fails. *)
Theorem countTokens_accepts_non_strings (ms : catalog) :
  countTokens ms (VArr (repeat (VNum (Int 7)) 8)) = Returns (Int 2)
  /\ countTokens ms (VNum (Int 5)) = Returns NaN.
Proof. split; reflexivity. Qed.

End TokenCounting.

(** C4, where the claim as stated fails: with an encoder that throws, the
    three characters of "abc" are counted as 0 tokens, and
    [ceil(3 / 4)] is 1. *)
Lemma countTokens_fallback_rounds_down :
  @countTokens (host_of broken_encoder) default_models (VStr "abc") = Returns (Int 0)
  /\ spec_fallback (String.length "abc") = 1%Z.
Proof. split; reflexivity. Qed.

Lemma countTokens_fallback_witness :
  @countTokens (host_of broken_encoder) default_models (VStr "abcdefgh")
  = Returns (Int (Z.of_nat (String.length "abcdefgh") / 4))
  /\ @countTokens (host_of chars_encoder) default_models (VStr "")
     = Returns (Int (Z.of_nat (String.length "") / 4)).
Proof.
  split.
  - apply (@countTokens_fallback (host_of broken_encoder) default_models "abcdefgh").
    left. reflexivity.
  - apply (@countTokens_fallback (host_of chars_encoder) default_models "").
    right. exists []. split; [reflexivity|]. left. reflexivity.
Defined.

(** ** The budget of a request *)

Section Budget.
Context `{Host}.

(** The method reads the instance and leaves it as it is. *)
Lemma adjustMaxExpectedResponseTokens_state (body : obj) (st : ChatGPT) :
  (adjustMaxExpectedResponseTokens body st).2 = st.
Proof.
  unfold adjustMaxExpectedResponseTokens. run.
  destruct (lookup_model _ _) as [[? ? ? ? [a|]]|]; try reflexivity.
  destruct (extractContent a body); try reflexivity. simpl.
  destruct (countTokens _ _) as [tokens|]; try reflexivity. simpl.
  destruct (num_gt tokens _); try reflexivity.
  destruct (body !! "max_tokens"); try reflexivity.
  destruct (js_gt _ _); reflexivity.
Qed.

(** C1 (as amended): for a request whose model has the ceiling [C], whose
    prompt counts [P] tokens and which asks for [R] output tokens: if
    [P < C] and [P + R > C] the request leaves with [C - P] output tokens,
    and if [P > C] the method fails with the error of a prompt too large
    for the model. *)
Theorem budget_clamp (st : ChatGPT) (body : obj) (name : string) (m : model)
    (a : api) (content : value) (C P R : Z) :
  prop body "model" = VStr name ->
  lookup_model (models st) name = Some m ->
  method m = Some a ->
  token_limit m = C ->
  extractContent a body = Returns content ->
  countTokens (models st) content = Returns (Int P) ->
  body !! "max_tokens" = Some (VNum (Int R)) ->
  ((P < C)%Z -> (P + R > C)%Z ->
     adjustMaxExpectedResponseTokens body st
     = (Returns (<["max_tokens" := VNum (Int (C - P))]> body), st))
  /\ ((P > C)%Z ->
        adjustMaxExpectedResponseTokens body st = (Throws (QueryTooBig (Int P) C), st)).
Proof.
  intros Hname Hm Ha HC Hcontent Hcount Hmax.
  unfold adjustMaxExpectedResponseTokens. run.
  rewrite Hname. simpl. rewrite Hm. destruct m as [fam lim us ps meth].
  simpl in Ha, HC. subst meth lim. rewrite Hcontent. simpl.
  rewrite Hcount. simpl. rewrite num_gt_Int, Hmax.
  unfold js_gt, js_add. simpl. rewrite num_add_Int, num_gt_Int, num_sub_Int.
  split.
  - intros HPC HPR.
    destruct (Z.ltb_spec C P); [lia|].
    destruct (Z.ltb_spec C (P + R)); [reflexivity|lia].
  - intros HPC. destruct (Z.ltb_spec C P); [reflexivity|lia].
Qed.

(** Below the ceiling with room for the requested output, the request is
    left as it is. *)
Lemma budget_untouched (st : ChatGPT) (body : obj) (name : string) (m : model)
    (a : api) (content : value) (C P R : Z) :
  prop body "model" = VStr name ->
  lookup_model (models st) name = Some m ->
  method m = Some a ->
  token_limit m = C ->
  extractContent a body = Returns content ->
  countTokens (models st) content = Returns (Int P) ->
  body !! "max_tokens" = Some (VNum (Int R)) ->
  (P + R <= C)%Z -> (0 <= R)%Z ->
  adjustMaxExpectedResponseTokens body st = (Returns body, st).
Proof.
  intros Hname Hm Ha HC Hcontent Hcount Hmax HPR HR.
  unfold adjustMaxExpectedResponseTokens. run.
  rewrite Hname. simpl. rewrite Hm. destruct m as [fam lim us ps meth].
  simpl in Ha, HC. subst meth lim. rewrite Hcontent. simpl.
  rewrite Hcount. simpl. rewrite num_gt_Int, Hmax.
  unfold js_gt, js_add. simpl. rewrite num_add_Int, num_gt_Int.
  destruct (Z.ltb_spec C P); [lia|].
  destruct (Z.ltb_spec C (P + R)); [lia|reflexivity].
Qed.

End Budget.

(** C1, where the claim as stated fails: a prompt of exactly 4096 tokens for
    a model whose ceiling is 4096 is not refused; the request leaves with 0
    output tokens. *)
Lemma prompt_at_ceiling_is_sent :
  lookup_model default_models "text-davinci-003"
  = Some {| family := "GPT-3.5"; token_limit := 4096; usage := Some "query";
            params := Some completion_params; method := Some createCompletion |}
  /\ @countTokens (host_of chars_encoder) default_models (VStr prompt_4096)
     = Returns (Int 4096)
  /\ @adjustMaxExpectedResponseTokens (host_of chars_encoder) body_at_limit
       (new_ChatGPT None)
     = (Returns (<["max_tokens" := VNum (Int 0)]> body_at_limit), new_ChatGPT None).
Proof. split; [reflexivity|]. split; vm_compute; reflexivity. Qed.

Lemma budget_clamp_witness :
  @adjustMaxExpectedResponseTokens (host_of chars_encoder) (body_small 5000)
    (new_ChatGPT None)
  = (Returns (<["max_tokens" := VNum (Int (4096 - 8))]> (body_small 5000)),
     new_ChatGPT None)
  /\ @adjustMaxExpectedResponseTokens (host_of chars_encoder) body_too_big
       session_small_models
     = (Throws (QueryTooBig (Int 8) 4), session_small_models).
Proof.
  split.
  - refine (proj1 (@budget_clamp (host_of chars_encoder) (new_ChatGPT None)
                     (body_small 5000) "text-davinci-003" _ createCompletion
                     (VStr "abcdefgh") 4096 8 5000 _ _ _ _ _ _ _) _ _);
      first [ reflexivity | lia ].
  - refine (proj2 (@budget_clamp (host_of chars_encoder) session_small_models
                     body_too_big "tiny" _ createCompletion
                     (VStr "abcdefgh") 4 8 16 _ _ _ _ _ _ _) _);
      first [ reflexivity | lia ].
Defined.

(** ** The history and its rendering *)

Section History.
Context `{Host}.

Lemma formatMessage_spec (format : string) (r : role) (content : string) (st : ChatGPT) :
  formatMessage format r content st
  = (Returns (message_of (names st) format r content), st).
Proof. unfold formatMessage, message_of. run. destruct (String.eqb format "chat"); reflexivity. Qed.

Lemma formatPairs_spec (format : string) (l : list turn) (st : ChatGPT) :
  formatPairs format l st
  = (Returns (flat_map (fun t => [message_of (names st) format user (input t);
                                  message_of (names st) format assistant (output t)]) l),
     st).
Proof.
  induction l as [|t l IH]; [reflexivity|].
  simpl. unfold bind at 1. rewrite formatMessage_spec.
  unfold bind at 1. rewrite formatMessage_spec.
  unfold bind at 1. rewrite IH. reflexivity.
Qed.

(** Reversing the flat list of pairs reverses the turns and, with them,
    each pair. *)
Lemma rev_pairs {A B} (f g : A -> B) (l : list A) :
  rev (flat_map (fun x => [f x; g x]) l) = flat_map (fun x => [g x; f x]) (rev l).
Proof.
  induction l as [|x l IH]; [reflexivity|].
  simpl. rewrite IH, flat_map_app. simpl.
  rewrite <- app_assoc. reflexivity.
Qed.

Lemma formatHistory_spec (format : string) (h : option (list nat)) (st : ChatGPT) :
  formatHistory format h st
  = (Returns (flat_map (fun t => [message_of (names st) format assistant (output t);
                                  message_of (names st) format user (input t)])
                       (rev (deref st h))),
     st).
Proof.
  unfold formatHistory. run. rewrite formatPairs_spec. rewrite rev_pairs. reflexivity.
Qed.

(** The references the loop collects below index [i] are those of the
    turns not summarized among the first [i], most recent first. *)
Lemma unsummorized_below_deref (h : list turn) (i : nat) :
  (i <= length h)%nat ->
  omap (fun j => h !! j) (unsummorized_below h i) = rev (pending (take i h)).
Proof.
  induction i as [|i IH]; intros Hi; [reflexivity|].
  destruct (lookup_lt_is_Some_2 h i) as [t Ht]; [lia|].
  rewrite (take_S_r _ _ _ Ht). unfold pending in *.
  rewrite List.filter_app, rev_app_distr. simpl. rewrite Ht.
  destruct t as [q qt done a ato ts]. destruct done; simpl.
  - apply IH. lia.
  - rewrite Ht. simpl. f_equal. apply IH. lia.
Qed.

Lemma getUnsummorizedHistory_deref (st : ChatGPT) :
  deref st (Some (unsummorized_below (history st) (length (history st))))
  = rev (pending (history st)).
Proof.
  unfold deref. rewrite unsummorized_below_deref by lia.
  rewrite firstn_all. reflexivity.
Qed.

(** What the chat prompt holds, for every session: the system message, then
    for each turn not summarized, oldest first, the assistant's answer
    followed by the user's input, then the new input. *)
Lemma chat_messages_spec (question : string) (st : ChatGPT) :
  chat_messages question st
  = (Returns ([VMsg system (if truthy (VStr (summary st)) then summary st
                            else "You are a helpful assistant.")]
              ++ flat_map (fun t => [VMsg assistant (output t); VMsg user (input t)])
                          (pending (history st))
              ++ [VMsg user question])%list,
     st).
Proof.
  unfold chat_messages, getUnsummorizedHistory. run.
  rewrite formatHistory_spec. simpl fst. simpl snd. cbv iota.
  rewrite getUnsummorizedHistory_deref, rev_involutive. reflexivity.
Qed.

(** C2 (what the code does): with one turn in the history, the user's "hi"
    answered by "hello", the prompt of the next chat lists the answer
    before the input it answers. *)
Theorem chat_prompt_lists_answer_first :
  chat_messages "and you?" session_one_turn
  = (Returns [VMsg system "You are a helpful assistant.";
              VMsg assistant "hello";
              VMsg user "hi";
              VMsg user "and you?"],
     session_one_turn).
Proof. rewrite chat_messages_spec. reflexivity. Qed.

(** The total is taken over the history of the instance. *)
Lemma fold_tokens (l : list turn) (acc : Z) :
  fold_left (fun total record => total + (input_tokens record + output_tokens record)) l acc
  = (acc + spec_tokensOf l)%Z.
Proof.
  revert acc. induction l as [|t l IH]; intros acc; simpl; [lia|].
  rewrite IH. lia.
Qed.

(** The argument of [countHistoryTokens] contributes its length to the
    guard and nothing to the total. *)
Lemma countHistoryTokens_spec (h : option (list nat)) (st : ChatGPT) :
  countHistoryTokens h st
  = (if (spec_tokensOf (history st) >? 1000000)%Z
        || (negb (Nat.eqb (turns_length st h) 0) && (spec_tokensOf (history st) =? 0)%Z)
     then Throws (HistoryCount (turns_length st h) (spec_tokensOf (history st)))
     else Returns (spec_tokensOf (history st)),
     st).
Proof.
  unfold countHistoryTokens. run. rewrite fold_tokens. simpl.
  destruct (_ || _); reflexivity.
Qed.

(** C3 (what the code does): in a session whose first turn (10 + 20
    tokens) is summarized and whose second (1 + 2 tokens) is not, counting
    the turns not summarized gives 33 and not the 3 tokens of that
    sequence, and counting the empty sequence gives 33 and not 0. *)
Theorem countHistoryTokens_counts_whole_history :
  unsummorized_below (history session_two_turns) 2 = [1%nat]
  /\ spec_tokensOf (deref session_two_turns (Some [1%nat])) = 3%Z
  /\ countHistoryTokens (Some [1%nat]) session_two_turns
     = (Returns 33%Z, session_two_turns)
  /\ countHistoryTokens (Some []) session_two_turns
     = (Returns 33%Z, session_two_turns).
Proof. repeat split; reflexivity. Qed.

End History.

(** ** Choosing a model *)

Section Resolution.
Context `{Host}.

Lemma getModelName_state (tempConf : option obj) (wanted : string) (st : ChatGPT) :
  (getModelName tempConf wanted st).2 = st.
Proof.
  unfold getModelName. run.
  destruct (match tempConf with Some _ => _ | None => _ end); [reflexivity|].
  destruct (List.find _ _) as [k|].
  - destruct (negb _); reflexivity.
  - destruct (keys (models st)); reflexivity.
Qed.

(** A requested model that the catalog knows is the one returned. *)
Lemma getModelName_requested (tc : obj) (wanted name : string) (st : ChatGPT) :
  tc !! "model" = Some (VStr name) -> name <> "" ->
  in_models (models st) name = true ->
  getModelName (Some tc) wanted st = (Returns (VStr name), st).
Proof.
  intros Hreq Hne Hin. unfold getModelName. run. unfold prop. rewrite Hreq. simpl.
  destruct (String.eqb_spec name ""); [contradiction|]. simpl. rewrite Hin. reflexivity.
Qed.

(** Without a usable request, the first key whose entry has the wanted
    usage is returned. *)
Lemma getModelName_by_usage (wanted k : string) (st : ChatGPT) :
  List.find (fun k => match lookup_model (models st) k with
                      | Some {| usage := Some u |} => String.eqb u wanted
                      | _ => false
                      end) (keys (models st)) = Some k ->
  k <> "" ->
  getModelName None wanted st = (Returns (VStr k), st).
Proof.
  intros Hfind Hne. unfold getModelName. run. rewrite Hfind. simpl.
  destruct (String.eqb_spec k ""); [contradiction|]. reflexivity.
Qed.

(** Without a usable request and without an entry of the wanted usage, a
    catalog that is not empty makes the method return [undefined]: it
    reads the property [name] of the first entry, which no entry has. *)
Lemma getModelName_no_match (wanted : string) (st : ChatGPT) :
  List.find (fun k => match lookup_model (models st) k with
                      | Some {| usage := Some u |} => String.eqb u wanted
                      | _ => false
                      end) (keys (models st)) = None ->
  models st <> [] ->
  getModelName None wanted st = (Returns VUndefined, st).
Proof.
  intros Hfind Hne. unfold getModelName. run. rewrite Hfind.
  destruct (models st) as [|[k m] ms]; [contradiction|]. reflexivity.
Qed.

(** C6 (what the code does): on the catalog without its chat model, which
    still lists four models, resolving for chat returns [undefined] and not
    the first model listed, and building its request fails on that. *)
Theorem getModelName_returns_undefined :
  keys (models session_without_chat)
  = ["gpt-4"; "text-davinci-003"; "davinci"; "curie"]
  /\ getModelName (Some ∅) "chat" session_without_chat
     = (Returns VUndefined, session_without_chat)
  /\ createBody VUndefined (Some ∅) session_without_chat
     = (Throws ExpectedModelName, session_without_chat).
Proof. repeat split; reflexivity. Qed.

End Resolution.

(** ** Temporary configurations *)

Section Configuration.
Context `{Host}.

(** [configure] writes [#conf] and nothing else. *)
Lemma configure_frame (c : obj) (st : ChatGPT) :
  exists old c', configure c st = (Returns old, set_conf c' st).
Proof.
  unfold configure. destruct (truthy _); [destruct (js_gt _ _)|]; eauto.
Qed.

(** [createBody] writes [#conf] and nothing else. *)
Lemma createBody_frame (model_name : value) (tempConf : option obj) (st : ChatGPT) :
  exists c', (createBody model_name tempConf st).2 = set_conf c' st.
Proof.
  assert (Hid : st = set_conf (conf st) st) by (destruct st; reflexivity).
  unfold createBody. destruct model_name; try (exists (conf st); exact Hid).
  run. destruct (in_models (models st) s).
  - destruct tempConf as [tc|].
    + destruct (configure_frame tc st) as (old & c' & ->). simpl.
      destruct (lookup_model _ _) as [[? ? ? [ps|] ?]|]; simpl; eauto.
    + destruct (lookup_model _ _) as [[? ? ? [ps|] ?]|]; simpl;
        exists (conf st); exact Hid.
  - destruct (engines st) as [ids|]; [case_bool_decide|]; exists (conf st); exact Hid.
Qed.

(** A property that only the temporary configuration has stays in [#conf]
    after the body is built: the reverting assignment writes back the
    properties of the copy taken before, and that copy does not have it. *)
Lemma createBody_keeps_new_property (name : string) (tc : obj) (st st' : ChatGPT)
    (body : obj) (k : string) (v : value) :
  createBody (VStr name) (Some tc) st = (Returns body, st') ->
  k <> "max_tokens" ->
  tc !! k = Some v -> conf st !! k = None ->
  conf st' !! k = Some v.
Proof.
  unfold createBody. run. destruct (in_models (models st) name).
  2: { destruct (engines st); [case_bool_decide|]; discriminate. }
  unfold configure. intros Hrun Hk Htc Hconf.
  assert (Hold : json_copy (conf st) !! k = None).
  { unfold json_copy. rewrite lookup_omap, Hconf. reflexivity. }
  destruct (truthy (prop tc "max_tokens")); [destruct (js_gt _ _)|];
    simpl in Hrun;
    (destruct (lookup_model _ _) as [[? ? ? [ps|] ?]|]; [|discriminate..]);
    inversion Hrun; subst; simpl; unfold assign;
    rewrite lookup_union_r by exact Hold.
  - rewrite (lookup_union_Some_l _ _ _ v); [reflexivity|].
    rewrite lookup_delete_ne by congruence. exact Htc.
  - rewrite (lookup_union_Some_l _ _ _ v); [reflexivity|].
    rewrite lookup_delete_ne by congruence. exact Htc.
  - rewrite (lookup_union_Some_l _ _ _ v); [reflexivity|]. exact Htc.
Qed.

(** A property the persisted configuration had, holding a value that
    survives the copy through JSON, has that value again after the body is
    built. *)
Lemma createBody_restores_old_property (name : string) (tc : obj) (st st' : ChatGPT)
    (body : obj) (k : string) (v : value) :
  createBody (VStr name) (Some tc) st = (Returns body, st') ->
  conf st !! k = Some v -> v <> VUndefined -> json_value v = v ->
  conf st' !! k = Some v.
Proof.
  unfold createBody. run. destruct (in_models (models st) name).
  2: { destruct (engines st); [case_bool_decide|]; discriminate. }
  unfold configure. intros Hrun Hconf Hdef Hjson.
  assert (Hold : json_copy (conf st) !! k = Some v).
  { unfold json_copy. rewrite lookup_omap, Hconf. simpl.
    destruct v; try contradiction; simpl in *; congruence. }
  destruct (truthy (prop tc "max_tokens")); [destruct (js_gt _ _)|];
    simpl in Hrun;
    (destruct (lookup_model _ _) as [[? ? ? [ps|] ?]|]; [|discriminate..]);
    inversion Hrun; subst; simpl; unfold assign;
    apply lookup_union_Some_l; exact Hold.
Qed.

(** C7 (what the code does): built with the temporary configuration of the
    command line client, a request leaves the property [model] in the
    persisted configuration, which did not have it; built with a temporary
    [user], it leaves [user] there, and the next request, built without
    any temporary configuration, carries it. *)
Theorem createBody_override_persists :
  conf (new_ChatGPT None) !! "model" = None
  /\ conf (createBody (VStr "gpt-4") (Some override_model) (new_ChatGPT None)).2
       !! "model" = Some (VStr "gpt-4")
  /\ conf (new_ChatGPT None) !! "user" = None
  /\ conf (createBody (VStr "gpt-4") (Some override_user) (new_ChatGPT None)).2
       !! "user" = Some (VStr "bob")
  /\ match (createBody (VStr "gpt-4") None
              (createBody (VStr "gpt-4") (Some override_user) (new_ChatGPT None)).2).1
     with
     | Returns body => body !! "user"
     | Throws _ => None
     end = Some (VStr "bob").
Proof. repeat split; vm_compute; reflexivity. Qed.

End Configuration.

(** ** Calls to the backend *)

Section Calls.
Context `{Host}.

Lemma length_zero_empty (s : string) : String.length s = 0%nat <-> s = "".
Proof. destruct s; simpl; split; intros E; try reflexivity; discriminate. Qed.

Lemma append_not_empty (s t : string) : s <> "" -> s ++ t <> "".
Proof. destruct s; [contradiction|discriminate]. Qed.



(** A response that is read successfully gives a text that is not
    empty. *)
Lemma parse_response_resolved (a : api) (choices : list choice) (s : string) :
  parse_response a choices = Resolved s -> s <> "".
Proof.
  unfold parse_response. destruct (extractResponse a choices) as [out|]; [|discriminate].
  destruct (Nat.eqb_spec (String.length out) 0) as [|Hlen]; [discriminate|].
  assert (Hout : out <> "") by (intros ->; apply Hlen; reflexivity).
  intros Hres.
  assert (Hcases : s = out \/ exists w, s = out ++ w).
  { destruct (getFinishReason choices) as [r|]; [|inversion Hres; eauto].
    destruct (String.eqb_spec r "stop") as [->|Hr]; [inversion Hres; eauto|].
    right. exists (warning (Some r)).
    destruct r as [|c1 r]; [inversion Hres; reflexivity|].
    repeat (match goal with
            | Hres : (match ?x with _ => _ end) = _ |- _ =>
                destruct x; try (inversion Hres; reflexivity)
            end).
    exfalso. apply Hr. reflexivity. }
  destruct Hcases as [->|[w ->]]; [assumption|apply append_not_empty; assumption].
Qed.

Lemma parse_response_empty (a : api) (choices : list choice) :
  extractResponse a choices = Returns "" ->
  parse_response a choices = Rejected (ParseFailed EmptyResponse).
Proof. intros E. unfold parse_response. rewrite E. reflexivity. Qed.

Lemma makeApiCall_resolved (conn : connection) (body : obj) (st : ChatGPT) (s : string) :
  makeApiCall conn body st = Resolved s -> s <> "".
Proof.
  unfold makeApiCall.
  destruct (adjustMaxExpectedResponseTokens body st) as [[body'|e] st1]; [|discriminate].
  destruct (lookup_model _ _) as [[? ? ? ? [a|]]|]; try discriminate.
  destruct (conn a body'); try discriminate.
  apply parse_response_resolved.
Qed.

(** The call once the request is sent and answered with an empty text. *)
Lemma makeApiCall_empty (conn : connection) (body body' : obj) (st : ChatGPT)
    (m : model) (a : api) (choices : list choice) :
  adjustMaxExpectedResponseTokens body st = (Returns body', st) ->
  lookup_model (models st) (ToString (prop body "model")) = Some m ->
  method m = Some a ->
  conn a body' = Response choices ->
  extractResponse a choices = Returns "" ->
  makeApiCall conn body st = Rejected (ParseFailed EmptyResponse).
Proof.
  intros Hadj Hm Ha Hconn Hempty. unfold makeApiCall. rewrite Hadj, Hm.
  destruct m as [? ? ? ? meth]. simpl in Ha. subst meth.
  rewrite Hconn. apply parse_response_empty, Hempty.
Qed.

(** The call in terms of the request it sends: without a request the
    error of the adjustment is wrapped as the cause of a failed request,
    and with one the promise is settled from the reply alone. *)
Lemma makeApiCall_unsent (conn : connection) (body : obj) (st : ChatGPT) :
  request body st = None ->
  exists cause, makeApiCall conn body st = Rejected (RequestFailed (Some cause)).
Proof.
  unfold request, makeApiCall.
  destruct (adjustMaxExpectedResponseTokens body st) as [[body'|e] st1]; [|eauto].
  destruct (lookup_model _ _) as [[? ? ? ? [a|]]|]; eauto. discriminate.
Qed.

Lemma makeApiCall_sent (conn : connection) (body : obj) (st : ChatGPT) (a : api)
    (b : obj) :
  request body st = Some (a, b) ->
  makeApiCall conn body st
  = match conn a b with
    | Response choices => parse_response a choices
    | NoData => Rejected (HostTypeError "data")
    | ApiFailure status type message => Rejected (ApiError status type message)
    | ApiFailureNoError _ => Rejected (HostTypeError "error")
    | Failure => Rejected (RequestFailed None)
    | FailureNullish => Rejected (HostTypeError "response")
    end.
Proof.
  unfold request, makeApiCall.
  destruct (adjustMaxExpectedResponseTokens body st) as [[body'|e] st1]; [|discriminate].
  destruct (lookup_model _ _) as [[? ? ? ? [a'|]]|]; try discriminate.
  intros [= <- <-]. reflexivity.
Qed.

(** The call when the reply to its request is a response whose extracted
    text is empty. *)
Lemma makeApiCall_blank (conn : connection) (body : obj) (st : ChatGPT) (a : api)
    (b : obj) (choices : list choice) :
  request body st = Some (a, b) ->
  conn a b = Response choices ->
  extractResponse a choices = Returns "" ->
  makeApiCall conn body st = Rejected (ParseFailed EmptyResponse).
Proof.
  intros Hreq Hconn Hempty. rewrite (makeApiCall_sent conn body st a b Hreq), Hconn.
  apply parse_response_empty, Hempty.
Qed.


(** [query] writes [#conf] and nothing else, and the promise it returns is
    that of the call it made. *)
Lemma query_cases (input_v : value) (tempConf : option obj) (conn : connection)
    (st : ChatGPT) :
  exists c',
    (query input_v tempConf conn st).2 = set_conf c' st
    /\ ((exists e, (query input_v tempConf conn st).1 = Throws e)
        \/ (exists body,
              (query input_v tempConf conn st).1
              = Returns (makeApiCall conn body (set_conf c' st)))).
Proof.
  assert (Hid : st = set_conf (conf st) st) by (destruct st; reflexivity).
  unfold query. run.
  destruct (checkNonemptyString input_v) as [prompt|e].
  2: { exists (conf st). rewrite <- Hid. eauto. }
  pose proof (getModelName_state tempConf "query" st) as Hst.
  destruct (getModelName tempConf "query" st) as [[model_name|e] st1];
    simpl in Hst; subst st1.
  2: { exists (conf st). rewrite <- Hid. eauto. }
  destruct (createBody_frame model_name tempConf st) as [c' Hc'].
  destruct (createBody model_name tempConf st) as [[body|e] st2];
    simpl in Hc'; subst st2; exists c'; simpl; eauto.
Qed.

End Calls.

(** ** Summaries *)

Section Summaries.
Context `{Host}.

(** Up to the call of [query], [summarize] writes [#conf] and nothing
    else, and what it returns is the promise of a call to the backend. *)
Lemma summarize_request_cases (h : option (list nat)) (tokens : option Z)
    (conn : connection) (st : ChatGPT) :
  exists c',
    (summarize_request h tokens conn st).2 = set_conf c' st
    /\ ((exists e, (summarize_request h tokens conn st).1 = Throws e)
        \/ (exists body,
              (summarize_request h tokens conn st).1
              = Returns (makeApiCall conn body (set_conf c' st)))).
Proof.
  assert (Hid : st = set_conf (conf st) st) by (destruct st; reflexivity).
  unfold summarize_request.
  set (counted := match match h with Some _ => tokens | None => None end with
                  | Some t => if (t =? 0)%Z then countHistoryTokens h else ret t
                  | None => countHistoryTokens h
                  end).
  assert (Hcounted : (counted st).2 = st).
  { subst counted. destruct (match h with Some _ => tokens | None => None end) as [t|];
      [destruct (t =? 0)%Z|]; try reflexivity;
      rewrite countHistoryTokens_spec; reflexivity. }
  unfold bind, get.
  destruct (counted st) as [[total|e] st1]; simpl in Hcounted; subst st1.
  2: { exists (conf st). rewrite <- Hid. simpl. eauto. }
  rewrite formatHistory_spec. apply query_cases.
Qed.

(** The callback marks the turns it was given, and only marks. *)
Lemma marked_stays (refs : list nat) (hist : list turn) (i : nat) :
  (forall t, hist !! i = Some t -> summarized t = true) ->
  forall t, fold_left (fun hist j => alter mark_summarized j hist) refs hist !! i = Some t ->
            summarized t = true.
Proof.
  revert hist. induction refs as [|j refs IH]; intros hist Hdone; [exact Hdone|].
  simpl. apply IH. intros t. destruct (decide (j = i)) as [->|Hne].
  - rewrite list_lookup_alter_eq. destruct (hist !! i); [|discriminate].
    intros [= <-]. reflexivity.
  - rewrite list_lookup_alter_ne by exact Hne. apply Hdone.
Qed.

Lemma marked_covered (refs : list nat) (hist : list turn) (i : nat) :
  i ∈ refs ->
  forall t, fold_left (fun hist j => alter mark_summarized j hist) refs hist !! i = Some t ->
            summarized t = true.
Proof.
  revert hist. induction refs as [|j refs IH]; intros hist Hin.
  - inversion Hin.
  - simpl. apply elem_of_cons in Hin as [->|Hin]; [|apply IH, Hin].
    apply marked_stays. intros t. rewrite list_lookup_alter_eq.
    destruct (hist !! j); [|discriminate]. intros [= <-]. reflexivity.
Qed.

(** A reference in the view of the turns not summarized refers to a turn
    whose flag is off. *)
Lemma unsummorized_below_elem (hist : list turn) (n i : nat) :
  i ∈ unsummorized_below hist n ->
  exists t, hist !! i = Some t /\ summarized t = false.
Proof.
  induction n as [|n IH]; simpl; [inversion 1|].
  destruct (hist !! n) as [[q qt done a ato ts]|] eqn:E; [destruct done|]; try exact IH.
  intros Hin. apply elem_of_cons in Hin as [->|Hin]; [|exact (IH Hin)].
  eexists. split; [exact E|reflexivity].
Qed.

Lemma slice_length (n : nat) (s : string) :
  String.length (slice n s) = (String.length s - n)%nat.
Proof.
  revert s. induction n as [|n IH]; intros s; simpl; [lia|].
  destruct s; simpl; [reflexivity|apply IH].
Qed.

Lemma without_label_not_empty (label answer : string) :
  answer <> "" ->
  startsWith answer label = false
  \/ (String.length label + 1 < String.length answer)%nat ->
  without_label label answer <> "".
Proof.
  intros Hne Hcase. unfold without_label.
  destruct (startsWith answer label); [|exact Hne].
  destruct Hcase as [|Hlen]; [discriminate|].
  intros E. apply (f_equal String.length) in E. rewrite slice_length in E.
  simpl in E. lia.
Qed.

(** The effect of the callback on the instance it finds. *)
Lemma summarize_then_effect (h : option (list nat)) (answer : string) (st : ChatGPT) :
  exists st',
    summarize_then h answer st
    = (Returns (without_label (names_assistant (names st)) answer), st')
    /\ summary st' = without_label (names_assistant (names st)) answer
    /\ names st' = names st
    /\ (forall i t, covered h i -> history st' !! i = Some t -> summarized t = true).
Proof.
  unfold summarize_then, without_label. run.
  destruct h as [refs|]; eexists; (split; [reflexivity|]);
    (split; [reflexivity|]); (split; [reflexivity|]); intros i t Hcov; simpl.
  - apply marked_covered, Hcov.
  - rewrite list_lookup_fmap. destruct (history st !! i); [|discriminate].
    intros [= <-]. reflexivity.
Qed.




(** When [summarize] resolves, every turn covered by its argument has its
    flag on, no such turn is in the view of the turns not summarized, and
    the running summary is the value resolved: the text of the backend,
    which is not empty, without a leading assistant name and the character
    after it.  That summary is not empty when the text does not start with
    the name or is more than one character longer. *)
Lemma summarize_success (h : option (list nat)) (tokens : option Z)
    (conn : connection) (st st' : ChatGPT) (s : string) :
  summarize h tokens conn st = (Resolved s, st') ->
  (forall i t, covered h i -> history st' !! i = Some t -> summarized t = true)
  /\ (forall i, covered h i ->
                i ∉ unsummorized_below (history st') (length (history st')))
  /\ summary st' = s
  /\ (exists answer,
        answer <> ""
        /\ s = without_label (names_assistant (names st)) answer
        /\ (startsWith answer (names_assistant (names st)) = false
            \/ (String.length (names_assistant (names st)) + 1 < String.length answer)%nat
            -> s <> "")).
Proof.
  unfold summarize.
  destruct (summarize_request_cases h tokens conn st) as (c' & Hst & Hres).
  destruct (summarize_request h tokens conn st) as [r st1]. simpl in Hst, Hres. subst st1.
  destruct Hres as [[e ->]|[body ->]]; [discriminate|].
  destruct (makeApiCall conn body (set_conf c' st)) as [answer|e] eqn:Hcall; [|discriminate].
  apply makeApiCall_resolved in Hcall.
  destruct (summarize_then_effect h answer (set_conf c' st))
    as (st2 & -> & Hsum & Hnames & Hmarks).
  simpl. intros [= <- <-]. split; [exact Hmarks|]. split; [|split; [exact Hsum|]].
  - intros i Hcov Hin. apply unsummorized_below_elem in Hin as (t & Ht & Hoff).
    rewrite (Hmarks i t Hcov Ht) in Hoff. discriminate.
  - exists answer. split; [exact Hcall|]. split; [reflexivity|].
    apply without_label_not_empty, Hcall.
Qed.

End Summaries.


(** C9 (what the code does): the backend answers "AI:" to the request for a
    summary of the one turn of the session; [summarize] resolves, the turn
    is flagged as summarized, and the running summary left behind is the
    empty string. *)
Theorem summarize_can_leave_empty_summary :
  (@summarize (host_of chars_encoder) (Some [0%nat]) None (conn_answer "AI:")
     session_one_turn).1 = Resolved ""
  /\ summary (@summarize (host_of chars_encoder) (Some [0%nat]) None (conn_answer "AI:")
                session_one_turn).2 = ""
  /\ summarized <$> history (@summarize (host_of chars_encoder) (Some [0%nat]) None
                               (conn_answer "AI:") session_one_turn).2 = [true].
Proof. repeat split; vm_compute; reflexivity. Qed.

(** A summary that succeeds with a text after the label. *)
Lemma summarize_success_example :
  (@summarize (host_of chars_encoder) (Some [0%nat]) None
     (conn_answer "AI: They greeted each other.") session_one_turn).1
  = Resolved " They greeted each other."
  /\ summary (@summarize (host_of chars_encoder) (Some [0%nat]) None
                (conn_answer "AI: They greeted each other.") session_one_turn).2
     = " They greeted each other."
  /\ (forall t,
        history (@summarize (host_of chars_encoder) (Some [0%nat]) None
                   (conn_answer "AI: They greeted each other.") session_one_turn).2
          !! 0%nat = Some t ->
        summarized t = true).
Proof.
  assert (E : @summarize (host_of chars_encoder) (Some [0%nat]) None
                (conn_answer "AI: They greeted each other.") session_one_turn
              = (Resolved " They greeted each other.",
                 (@summarize (host_of chars_encoder) (Some [0%nat]) None
                    (conn_answer "AI: They greeted each other.") session_one_turn).2))
    by (vm_compute; reflexivity).
  destruct (@summarize_success (host_of chars_encoder) _ _ _ _ _ _ E)
    as (Hmarks & _ & Hsum & _).
  split; [rewrite E; reflexivity|]. split; [exact Hsum|].
  intros t. apply Hmarks. simpl. apply list_elem_of_here.
Defined.

(** ** What [chat] and [query] give back *)

Section Answers.
Context `{Host}.

Lemma throw_never_returns {A} (e : error) : never_returns (@throw A e).
Proof. intros st. exists e, st. reflexivity. Qed.

Lemma bind_never_returns {A B} (m : M A) (k : A -> M B) :
  (forall a, never_returns (k a)) -> never_returns (bind m k).
Proof.
  intros Hk st. unfold bind. destruct (m st) as [[a|e] st1]; [apply Hk|eauto].
Qed.

(** The last statement of [chat] reads [catch] from the [undefined] that
    [#summarizeConversationIfCutoffExceeded] returned: the body of the
    method never reaches its [return]. *)
Lemma chat_body_never_returns (input_v : value) (tempConf : option obj) (conn : connection) :
  never_returns (chat_body input_v tempConf conn).
Proof.
  unfold chat_body.
  repeat first [ apply throw_never_returns
               | apply bind_never_returns; intros ?
               | progress cbv zeta ].
Qed.

Lemma chat_rejects (input_v : value) (tempConf : option obj) (conn : connection)
    (st : ChatGPT) :
  exists e st', chat input_v tempConf conn st = (Rejected e, st').
Proof.
  unfold chat. destruct (chat_body_never_returns input_v tempConf conn st) as (e & st' & ->).
  eauto.
Qed.

(** The gloss of a turn and the check of the cutoff write [#conf] and
    nothing else. *)
Lemma summarizeSingleInputOutput_frame (question answer : string) (conn : connection)
    (st : ChatGPT) :
  exists c', (summarizeSingleInputOutput question answer conn st).2 = set_conf c' st.
Proof.
  unfold summarizeSingleInputOutput. cbv zeta. unfold bind.
  match goal with
  | |- context [query ?i ?t conn st] =>
      destruct (query_cases i t conn st) as (c' & Hq & _);
      destruct (query i t conn st) as [[p|e] st1]
  end; simpl in *; subst st1; eauto.
Qed.

Lemma summarizeConversationIfCutoffExceeded_frame (force : bool) (conn : connection)
    (st : ChatGPT) :
  exists c', (summarizeConversationIfCutoffExceeded force conn st).2 = set_conf c' st.
Proof.
  assert (Hid : st = set_conf (conf st) st) by (destruct st; reflexivity).
  unfold summarizeConversationIfCutoffExceeded, getUnsummorizedHistory. run.
  destruct (negb _); [|exists (conf st); exact Hid].
  rewrite countHistoryTokens_spec.
  destruct (_ || _); simpl; [exists (conf st); exact Hid|].
  destruct (force || _); simpl; [|exists (conf st); exact Hid].
  match goal with
  | |- context [summarize_request ?h ?t conn st] =>
      destruct (summarize_request_cases h t conn st) as (c' & -> & _)
  end. eauto.
Qed.

(** What [query] returns is the promise of the call for its request. *)
Lemma query_sent (input_v : value) (tempConf : option obj) (conn : connection)
    (st : ChatGPT) (a : api) (b : obj) :
  query_request input_v tempConf st = Some (a, b) ->
  exists body st',
    query input_v tempConf conn st = (Returns (makeApiCall conn body st'), st')
    /\ request body st' = Some (a, b).
Proof.
  unfold query_request, query. run.
  destruct (checkNonemptyString input_v) as [prompt|e]; [|discriminate].
  destruct (getModelName tempConf "query" st) as [[model_name|e] st1]; [|discriminate].
  destruct (createBody model_name tempConf st1) as [[body|e] st2]; [|discriminate].
  intros Hreq. eauto.
Qed.

(** [chat] up to the call for the answer: once the request is made, a
    rejection of the call is the rejection of [chat], which has recorded
    nothing by then. *)
Lemma chat_sent (input_v : value) (tempConf : option obj) (conn : connection)
    (st : ChatGPT) (a : api) (b : obj) :
  chat_request input_v tempConf st = Some (a, b) ->
  exists body c',
    request body (set_conf c' st) = Some (a, b)
    /\ forall e, makeApiCall conn body (set_conf c' st) = Rejected e ->
                 chat input_v tempConf conn st = (Rejected e, set_conf c' st).
Proof.
  unfold chat_request, chat, chat_body. run.
  destruct (checkNonemptyString input_v) as [question|e]; [|discriminate].
  pose proof (getModelName_state (Some (default ∅ tempConf)) "chat" st) as Hst.
  destruct (getModelName _ "chat" st) as [[model_name|e] st1]; simpl in Hst; subst st1;
    [|discriminate].
  destruct (createBody_frame model_name (Some (default ∅ tempConf)) st) as [c1 Hc1].
  destruct (createBody model_name _ st) as [[body|e] st2]; simpl in Hc1; subst st2;
    [|discriminate].
  rewrite chat_messages_spec. intros Hreq.
  match goal with
  | Hreq : request ?b0 _ = _ |- _ => exists b0, c1
  end.
  split; [exact Hreq|]. intros e ->. reflexivity.
Qed.

(** The history after [chat] is the one before, or longer by one turn
    whose output, the answer of the backend, is not empty. *)
Lemma chat_history (input_v : value) (tempConf : option obj) (conn : connection)
    (st : ChatGPT) :
  history (chat input_v tempConf conn st).2 = history st
  \/ exists t, output t <> ""
               /\ history (chat input_v tempConf conn st).2 = (history st ++ [t])%list.
Proof.
  unfold chat, chat_body. run.
  destruct (checkNonemptyString input_v) as [question|e]; [|auto].
  pose proof (getModelName_state (Some (default ∅ tempConf)) "chat" st) as Hst.
  destruct (getModelName _ "chat" st) as [[model_name|e] st1]; simpl in Hst; subst st1;
    [|auto].
  destruct (createBody_frame model_name (Some (default ∅ tempConf)) st) as [c1 Hc1].
  destruct (createBody model_name _ st) as [[body|e] st2]; simpl in Hc1; subst st2;
    [|auto].
  rewrite chat_messages_spec.
  match goal with
  | |- context [makeApiCall conn ?b0 ?s0] =>
      destruct (makeApiCall conn b0 s0) as [answer|e] eqn:Hcall
  end; simpl; [|auto].
  apply makeApiCall_resolved in Hcall. right.
  match goal with
  | |- context [summarizeSingleInputOutput ?q answer conn ?s0] =>
      set (pushed := s0);
      destruct (summarizeSingleInputOutput_frame q answer conn pushed) as [c2 Hc2];
      destruct (summarizeSingleInputOutput q answer conn pushed) as [[p|e] st3]
  end; simpl in Hc2; subst st3.
  2: { eexists. split; [|reflexivity]. exact Hcall. }
  destruct (summarizeConversationIfCutoffExceeded_frame false conn (set_conf c2 pushed))
    as [c3 Hc3].
  destruct (summarizeConversationIfCutoffExceeded false conn (set_conf c2 pushed))
    as [[[]|e] st4]; simpl in Hc3; subst st4;
    (eexists; split; [|reflexivity]; exact Hcall).
Qed.

(** C10: when the reply to the request of [query] is a response whose
    extracted text is empty, the promise [query] returns is rejected with
    the error of reading the response, caused by the empty text; when the
    reply to the request [chat] makes for the answer is such a response,
    [chat] rejects with that same error and has recorded no turn.  Whatever
    the backend, a string that [query] resolves to is not empty.  [chat]
    resolves to no string at all: it always rejects, since its last
    statement throws; the answer it holds by then, which it has recorded as
    the output of a new turn, is not empty either. *)
Theorem empty_answer_is_rejected (input_v : value) (tempConf : option obj)
    (conn : connection) (st : ChatGPT) :
  (forall a b choices,
     query_request input_v tempConf st = Some (a, b) ->
     conn a b = Response choices ->
     extractResponse a choices = Returns "" ->
     (query input_v tempConf conn st).1 = Returns (Rejected (ParseFailed EmptyResponse)))
  /\ (forall a b choices,
        chat_request input_v tempConf st = Some (a, b) ->
        conn a b = Response choices ->
        extractResponse a choices = Returns "" ->
        (chat input_v tempConf conn st).1 = Rejected (ParseFailed EmptyResponse)
        /\ history (chat input_v tempConf conn st).2 = history st
        /\ summary (chat input_v tempConf conn st).2 = summary st)
  /\ (forall s st', query input_v tempConf conn st = (Returns (Resolved s), st') ->
                    s <> "")
  /\ (exists e st', chat input_v tempConf conn st = (Rejected e, st'))
  /\ (forall t, history (chat input_v tempConf conn st).2 = (history st ++ [t])%list ->
                output t <> "").
Proof.
  split; [|split; [|split; [|split]]].
  - intros a b choices Hreq Hconn Hempty.
    destruct (query_sent input_v tempConf conn st a b Hreq) as (body & st' & -> & Hsent).
    simpl. rewrite (makeApiCall_blank conn body st' a b choices Hsent Hconn Hempty).
    reflexivity.
  - intros a b choices Hreq Hconn Hempty.
    destruct (chat_sent input_v tempConf conn st a b Hreq) as (body & c' & Hsent & Hcall).
    rewrite (Hcall _ (makeApiCall_blank conn body _ a b choices Hsent Hconn Hempty)).
    repeat split; reflexivity.
  - intros s st' Hq.
    destruct (query_cases input_v tempConf conn st) as (c' & _ & [[e He]|[body Hb]]);
      rewrite Hq in *; simpl in *; [discriminate|].
    injection Hb as Hb. symmetry in Hb. apply makeApiCall_resolved in Hb. exact Hb.
  - apply chat_rejects.
  - intros t Ht. destruct (chat_history input_v tempConf conn st) as [Hsame|(t' & Hne & Hlong)].
    + rewrite Hsame in Ht. apply (f_equal length) in Ht. rewrite length_app in Ht.
      simpl in Ht. lia.
    + rewrite Hlong in Ht. apply app_inj_tail in Ht as [_ <-]. exact Hne.
Qed.

End Answers.

Lemma empty_answer_is_rejected_witness :
  (@query (host_of chars_encoder) (VStr "hello") None (conn_answer "  ")
     (new_ChatGPT None)).1
  = Returns (Rejected (ParseFailed EmptyResponse))
  /\ (@chat (host_of chars_encoder) (VStr "hello") None (conn_answer "  ")
        (new_ChatGPT None)).1
     = Rejected (ParseFailed EmptyResponse)
  /\ (@query (host_of chars_encoder) (VStr "hello") None (conn_answer " Hi! ")
        (new_ChatGPT None)).1
     = Returns (Resolved "Hi!")
  /\ "Hi!" <> ""
  /\ history (@chat (host_of chars_encoder) (VStr "hello") None (conn_answer " Hi! ")
                (new_ChatGPT None)).2
     = [turn_of "hello" "Hi!" 5 3 false]
  /\ output (turn_of "hello" "Hi!" 5 3 false) <> "".
Proof.
  assert (Hpushed : history (@chat (host_of chars_encoder) (VStr "hello") None
                               (conn_answer " Hi! ") (new_ChatGPT None)).2
                    = (history (new_ChatGPT None) ++ [turn_of "hello" "Hi!" 5 3 false])%list)
    by (vm_compute; reflexivity).
  destruct (@empty_answer_is_rejected (host_of chars_encoder) (VStr "hello") None
              (conn_answer "  ") (new_ChatGPT None)) as (Hquery & Hchat & _).
  destruct (@empty_answer_is_rejected (host_of chars_encoder) (VStr "hello") None
              (conn_answer " Hi! ") (new_ChatGPT None)) as (_ & _ & Hresolved & _ & Hturn).
  split; [|split; [|split; [|split; [|split]]]].
  - assert (Hsent : match @query_request (host_of chars_encoder) (VStr "hello") None
                            (new_ChatGPT None) with
                    | Some _ => true
                    | None => false
                    end = true) by (vm_compute; reflexivity).
    destruct (@query_request (host_of chars_encoder) (VStr "hello") None (new_ChatGPT None))
      as [[a b]|]; [|discriminate Hsent].
    apply (Hquery a b _ eq_refl eq_refl). destruct a; reflexivity.
  - assert (Hsent : match @chat_request (host_of chars_encoder) (VStr "hello") None
                            (new_ChatGPT None) with
                    | Some _ => true
                    | None => false
                    end = true) by (vm_compute; reflexivity).
    destruct (@chat_request (host_of chars_encoder) (VStr "hello") None (new_ChatGPT None))
      as [[a b]|]; [|discriminate Hsent].
    apply (Hchat a b _ eq_refl eq_refl). destruct a; reflexivity.
  - vm_compute; reflexivity.
  - apply (Hresolved "Hi!" (@query (host_of chars_encoder) (VStr "hello") None
                              (conn_answer " Hi! ") (new_ChatGPT None)).2).
    vm_compute; reflexivity.
  - exact Hpushed.
  - exact (Hturn _ Hpushed).
Defined.

(** ** More on configurations *)

Section ConfigurationMore.
Context `{Host}.

Lemma num_gt_NaN_r (a : number) : num_gt a NaN = false.
Proof. destruct a; reflexivity. Qed.

(** With at least one model in the catalog, the limit [configure] compares
    with is [NaN], and the method comes to one assignment. *)
Lemma configure_spec (c : obj) (st : ChatGPT) :
  models st <> [] ->
  configure c st = (Returns (json_copy (conf st)), set_conf (c ∪ conf st) st).
Proof.
  intros Hne. unfold configure.
  assert (Hlim : math_max (List.map (fun _ : string * model => ToNumber VUndefined)
                             (models st)) = NaN).
  { destruct (models st) as [|km ms]; [contradiction|]. reflexivity. }
  rewrite Hlim. unfold js_gt. rewrite num_gt_NaN_r.
  destruct (truthy (prop c "max_tokens")) eqn:Ht; [|reflexivity].
  do 2 f_equal. unfold assign. apply map_eq. intros k.
  unfold prop in *. destruct (c !! "max_tokens") as [v|] eqn:Hc; [|discriminate].
  simpl. rewrite !lookup_union. destruct (decide (k = "max_tokens")) as [->|Hk].
  - rewrite lookup_delete_eq, lookup_insert_eq, Hc. simpl.
    destruct (conf st !! "max_tokens"); reflexivity.
  - rewrite lookup_delete_ne, lookup_insert_ne by congruence. reflexivity.
Qed.


Lemma lookup_model_nonempty (ms : catalog) (name : string) (m : model) :
  lookup_model ms name = Some m -> ms <> [].
Proof. destruct ms; [discriminate|discriminate]. Qed.

(** What [createBody] does for a model of the catalog. *)
Lemma createBody_known (name : string) (tempConf : option obj) (st : ChatGPT) (m : model) :
  lookup_model (models st) name = Some m ->
  createBody (VStr name) tempConf st
  = match params m with
    | Some ps =>
        (Returns (copy_params ps (merged_conf tempConf st) {[ "model" := VStr name ]}),
         match tempConf with
         | Some tc => set_conf (json_copy (conf st) ∪ (tc ∪ conf st)) st
         | None => st
         end)
    | None =>
        (Throws (HostTypeError "params is not iterable"),
         match tempConf with
         | Some tc => set_conf (tc ∪ conf st) st
         | None => st
         end)
    end.
Proof.
  intros Hm. unfold createBody. run.
  assert (Hin : in_models (models st) name = true) by (unfold in_models; rewrite Hm; reflexivity).
  rewrite Hin. destruct tempConf as [tc|]; simpl.
  - rewrite (configure_spec tc st (lookup_model_nonempty _ _ _ Hm)). simpl. rewrite Hm.
    destruct m as [? ? ? [ps|] ?]; reflexivity.
  - rewrite Hm. destruct m as [? ? ? [ps|] ?]; reflexivity.
Qed.


(** What the loop over the parameters leaves under each name. *)
Lemma copy_params_lookup (ps : list string) (persisted b : obj) (k : string) :
  copy_params ps persisted b !! k
  = if bool_decide (k ∈ ps) then
      match persisted !! k with
      | Some v => if is_null v then b !! k else Some v
      | None => b !! k
      end
    else b !! k.
Proof.
  unfold copy_params. revert b. induction ps as [|p ps IH]; intros b; simpl.
  - reflexivity.
  - rewrite IH. clear IH.
    assert (Hstep : forall w, (match persisted !! p with
                               | Some VNull | None => b
                               | Some v => <[p:=v]> b
                               end) !! k = w ->
                    (k = p /\ w = match persisted !! k with
                                  | Some v => if is_null v then b !! k else Some v
                                  | None => b !! k
                                  end)
                    \/ (k <> p /\ w = b !! k)).
    { intros w <-. destruct (decide (k = p)) as [->|Hne]; [left|right]; split; trivial.
      - destruct (persisted !! p) as [[]|]; simpl; rewrite ?lookup_insert_eq; reflexivity.
      - destruct (persisted !! p) as [[]|]; simpl; rewrite ?lookup_insert_ne by congruence;
          reflexivity. }
    destruct (Hstep _ eq_refl) as [[-> Hw]|[Hne Hw]]; rewrite Hw.
    + rewrite (bool_decide_eq_true_2 (p ∈ p :: ps)) by apply list_elem_of_here.
      case_bool_decide; [|reflexivity].
      destruct (persisted !! p) as [v|]; [destruct (is_null v)|]; reflexivity.
    + destruct (bool_decide_reflect (k ∈ ps)) as [Hin|Hout].
      * rewrite bool_decide_eq_true_2 by (apply list_elem_of_further, Hin). reflexivity.
      * rewrite bool_decide_eq_false_2; [reflexivity|].
        intros Hin. apply elem_of_cons in Hin as [?|?]; contradiction.
Qed.

(** X3: a request that is built holds, beside [model], only parameters of
    its model, each with the value the configuration in force gives it; and
    it holds every parameter of the model to which that configuration gives
    a value other than [null]. *)
Theorem createBody_fields (name : string) (tempConf : option obj) (st st' : ChatGPT)
    (body : obj) (m : model) (ps : list string) :
  createBody (VStr name) tempConf st = (Returns body, st') ->
  lookup_model (models st) name = Some m ->
  params m = Some ps ->
  (forall k v, body !! k = Some v ->
               k = "model"
               \/ (k ∈ ps /\ merged_conf tempConf st !! k = Some v /\ is_null v = false))
  /\ (forall k v, k ∈ ps -> merged_conf tempConf st !! k = Some v -> is_null v = false ->
                  body !! k = Some v)
  /\ ("model" ∉ ps -> body !! "model" = Some (VStr name)).
Proof.
  intros Hrun Hm Hps. rewrite (createBody_known name tempConf st m Hm), Hps in Hrun.
  injection Hrun as <- _. split; [|split].
  - intros k v. rewrite copy_params_lookup.
    destruct (decide (k = "model")) as [->|Hk]; [auto|].
    rewrite lookup_singleton_ne by congruence.
    case_bool_decide; [|discriminate].
    destruct (merged_conf tempConf st !! k) as [w|]; [|discriminate].
    destruct (is_null w) eqn:Hnull; [discriminate|]. intros [= <-]. auto.
  - intros k v Hin Hk Hnull. rewrite copy_params_lookup.
    rewrite bool_decide_eq_true_2 by exact Hin. rewrite Hk, Hnull. reflexivity.
  - intros Hout. rewrite copy_params_lookup.
    rewrite bool_decide_eq_false_2 by exact Hout. apply lookup_singleton_eq.
Qed.


End ConfigurationMore.



Lemma createBody_fields_witness :
  (@createBody (host_of chars_encoder) (VStr "gpt-4") (Some override_user)
     (new_ChatGPT None)).1
  = Returns (copy_params chat_params (override_user ∪ conf (new_ChatGPT None))
               {[ "model" := VStr "gpt-4" ]})
  /\ copy_params chat_params (override_user ∪ conf (new_ChatGPT None))
       {[ "model" := VStr "gpt-4" ]} !! "user" = Some (VStr "bob")
  /\ copy_params chat_params (override_user ∪ conf (new_ChatGPT None))
       {[ "model" := VStr "gpt-4" ]} !! "model" = Some (VStr "gpt-4").
Proof.
  pose proof (@createBody_known (host_of chars_encoder) "gpt-4" (Some override_user)
                (new_ChatGPT None) _ eq_refl) as E.
  cbn [params] in E.
  destruct (@createBody_fields (host_of chars_encoder) "gpt-4" (Some override_user)
              (new_ChatGPT None) _ _ _ chat_params E eq_refl eq_refl)
    as (_ & Hin & Hmodel).
  split; [rewrite E; reflexivity|]. split.
  - apply Hin; [|reflexivity..]. vm_compute. repeat constructor.
  - apply Hmodel. vm_compute. intros Hin'. repeat (inversion Hin' as [|? ? ? Hin'']; subst; clear Hin'; rename Hin'' into Hin').
Defined.


(** ** More on the history *)

Section HistoryMore.
Context `{Host}.

Lemma unsummorized_below_lt (h : list turn) (n i : nat) :
  i ∈ unsummorized_below h n -> (i < n)%nat.
Proof.
  induction n as [|n IH]; simpl; [inversion 1|].
  destruct (h !! n) as [[q qt done a ato ts]|]; [destruct done|];
    try (intros Hin; specialize (IH Hin); lia).
  intros Hin. apply elem_of_cons in Hin as [->|Hin]; [lia|]. specialize (IH Hin). lia.
Qed.

Lemma unsummorized_below_complete (h : list turn) (n i : nat) (t : turn) :
  (i < n)%nat -> h !! i = Some t -> summarized t = false ->
  i ∈ unsummorized_below h n.
Proof.
  induction n as [|n IH]; intros Hlt Ht Hoff; [lia|]. simpl.
  destruct (decide (i = n)) as [->|Hne].
  - rewrite Ht. destruct t as [q qt done a ato ts]. simpl in Hoff. subst done.
    apply list_elem_of_here.
  - assert (Hin : i ∈ unsummorized_below h n) by (apply IH; [lia|assumption..]).
    destruct (h !! n) as [[q qt done a ato ts]|]; [destruct done|]; try exact Hin.
    apply list_elem_of_further, Hin.
Qed.

Lemma unsummorized_below_descending (h : list turn) (n a b x y : nat) :
  unsummorized_below h n !! a = Some x ->
  unsummorized_below h n !! b = Some y ->
  (a < b)%nat -> (y < x)%nat.
Proof.
  revert a b. induction n as [|n IH]; intros a b; simpl; [discriminate|].
  destruct (h !! n) as [[q qt done u ato ts]|]; [destruct done|]; try apply IH.
  destruct a as [|a]; destruct b as [|b]; simpl; try lia.
  - intros [= <-] Hy _. apply list_elem_of_lookup_2, unsummorized_below_lt in Hy. exact Hy.
  - intros Hx Hy Hlt. apply (IH a b); [assumption..|lia].
Qed.

(** X5: the view of the turns not summarized leaves the instance as it is
    and holds exactly the references of the turns whose flag is off, each
    once, the most recent first. *)
Theorem getUnsummorizedHistory_spec (st : ChatGPT) :
  exists refs,
    getUnsummorizedHistory st = (Returns refs, st)
    /\ (forall i, i ∈ refs <-> exists t, history st !! i = Some t /\ summarized t = false)
    /\ (forall a b x y, refs !! a = Some x -> refs !! b = Some y ->
                        (a < b)%nat -> (y < x)%nat).
Proof.
  eexists. split; [reflexivity|]. split.
  - intros i. split.
    + apply unsummorized_below_elem.
    + intros (t & Ht & Hoff). eapply unsummorized_below_complete; try eassumption.
      apply lookup_lt_Some in Ht. exact Ht.
  - apply unsummorized_below_descending.
Qed.

(** X7: [countHistoryTokens] leaves the instance as it is; a total it
    returns is at most 1000000 and is not zero when the array passed is not
    empty, and the only error it throws is that of the count. *)
Theorem countHistoryTokens_guard (h : option (list nat)) (st : ChatGPT) :
  exists r,
    countHistoryTokens h st = (r, st)
    /\ match r with
       | Returns total =>
           (total <= 1000000)%Z /\ (turns_length st h <> 0%nat -> total <> 0%Z)
       | Throws e => exists total, e = HistoryCount (turns_length st h) total
       end.
Proof.
  rewrite countHistoryTokens_spec. eexists. split; [reflexivity|].
  destruct (Z.gtb_spec (spec_tokensOf (history st)) 1000000) as [Hbig|Hsmall]; simpl.
  - eauto.
  - destruct (Nat.eqb_spec (turns_length st h) 0) as [Hlen|Hlen]; simpl.
    + split; [lia|]. intros Hne. contradiction.
    + destruct (Z.eqb_spec (spec_tokensOf (history st)) 0) as [Hz|Hz]; [eauto|].
      split; [lia|]. intros _. exact Hz.
Qed.

Lemma mark_summarized_same (t : turn) : same_turn_but_flag t (mark_summarized t).
Proof. repeat split. Qed.

Lemma same_turn_refl (t : turn) : same_turn_but_flag t t.
Proof. repeat split; auto. Qed.

(** Marking through an array of references marks the records referred to
    and leaves the others. *)
Lemma marked_lookup (refs : list nat) (hist : list turn) (i : nat) :
  fold_left (fun hist j => alter mark_summarized j hist) refs hist !! i
  = (if bool_decide (i ∈ refs) then mark_summarized else id) <$> hist !! i.
Proof.
  revert hist. induction refs as [|j refs IH]; intros hist; simpl.
  - destruct (hist !! i); reflexivity.
  - rewrite IH. destruct (decide (j = i)) as [->|Hne].
    + rewrite list_lookup_alter_eq.
      rewrite (bool_decide_eq_true_2 (i ∈ i :: refs)) by apply list_elem_of_here.
      destruct (hist !! i) as [t|]; simpl; [|reflexivity].
      case_bool_decide; reflexivity.
    + rewrite list_lookup_alter_ne by exact Hne.
      destruct (bool_decide_reflect (i ∈ refs)) as [Hin|Hout].
      * rewrite bool_decide_eq_true_2 by (apply list_elem_of_further, Hin). reflexivity.
      * rewrite bool_decide_eq_false_2; [reflexivity|].
        intros Hin. apply elem_of_cons in Hin as [?|?]; [congruence|contradiction].
Qed.

Lemma marked_length (refs : list nat) (hist : list turn) :
  length (fold_left (fun hist j => alter mark_summarized j hist) refs hist) = length hist.
Proof.
  revert hist. induction refs as [|j refs IH]; intros hist; simpl; [reflexivity|].
  rewrite IH. apply length_alter.
Qed.

(** X8: however [summarize] ends, the history keeps its length and every
    record keeps its input, its output, its token counts and its gloss; a
    flag that was on stays on, and a record that the argument does not
    cover is not touched at all. *)
Theorem summarize_keeps_turns (h : option (list nat)) (tokens : option Z)
    (conn : connection) (st : ChatGPT) :
  length (history (summarize h tokens conn st).2) = length (history st)
  /\ forall i t,
       history st !! i = Some t ->
       exists t',
         history (summarize h tokens conn st).2 !! i = Some t'
         /\ same_turn_but_flag t t'
         /\ (~ covered h i -> t' = t).
Proof.
  unfold summarize.
  destruct (summarize_request_cases h tokens conn st) as (c' & Hst & Hres).
  destruct (summarize_request h tokens conn st) as [r st1]. simpl in Hst, Hres. subst st1.
  assert (Hsame : length (history (set_conf c' st)) = length (history st)
                  /\ forall i t, history st !! i = Some t ->
                       exists t', history (set_conf c' st) !! i = Some t'
                                  /\ same_turn_but_flag t t' /\ (~ covered h i -> t' = t)).
  { split; [reflexivity|]. intros i t Ht. exists t. simpl.
    split; [exact Ht|]. split; [apply same_turn_refl|reflexivity]. }
  destruct Hres as [[e ->]|[body ->]]; [exact Hsame|].
  destruct (makeApiCall conn body (set_conf c' st)) as [answer|e]; [|exact Hsame].
  unfold summarize_then. run. destruct h as [refs|]; simpl.
  - split.
    + apply marked_length.
    + intros i t Ht. rewrite marked_lookup, Ht. simpl.
      case_bool_decide as Hin.
      * exists (mark_summarized t). split; [reflexivity|].
        split; [apply mark_summarized_same|]. intros Hout. contradiction.
      * exists t. split; [reflexivity|]. split; [apply same_turn_refl|reflexivity].
  - split; [apply length_fmap|].
    intros i t Ht. rewrite list_lookup_fmap, Ht. simpl.
    exists (mark_summarized t). split; [reflexivity|].
    split; [apply mark_summarized_same|]. intros Hout. exfalso. apply Hout. exact I.
Qed.

(** X19: the messages of a chat request start with the system message,
    which holds the running summary or, when that is empty, the default
    persona; they end with the new input of the user; and between the two
    there are two messages for each turn that is not summarized. *)
Theorem chat_messages_shape (question : string) (st : ChatGPT) :
  exists between,
    chat_messages question st
    = (Returns (VMsg system (if String.eqb (summary st) "" then "You are a helpful assistant."
                             else summary st)
                :: between ++ [VMsg user question])%list, st)
    /\ length between = (2 * length (pending (history st)))%nat
    /\ Forall (fun m => exists r content, m = VMsg r content /\ r <> system) between.
Proof.
  rewrite chat_messages_spec. eexists. split.
  - simpl. destruct (String.eqb (summary st) ""); reflexivity.
  - generalize (pending (history st)). intros l. split.
    + induction l as [|t l IH]; simpl; [reflexivity|]. rewrite IH. lia.
    + induction l as [|t l IH]; simpl; [constructor|].
      constructor; [exists assistant, (output t); split; [reflexivity|discriminate]|].
      constructor; [exists user, (input t); split; [reflexivity|discriminate]|]. exact IH.
Qed.

End HistoryMore.

(** ** More on the calls *)

Section CallsMore.
Context `{Host}.

(** X9: when the prompt counts [P] tokens and the request asks for [R], a
    request that passes the adjustment differs from the one that entered at
    most in [max_tokens]; what it asks for is not more than before, and
    together with the prompt it does not exceed the limit of the model. *)
Theorem adjust_fits (st st' : ChatGPT) (body body' : obj) (name : string) (m : model)
    (a : api) (content : value) (P R : Z) :
  prop body "model" = VStr name ->
  lookup_model (models st) name = Some m ->
  method m = Some a ->
  extractContent a body = Returns content ->
  countTokens (models st) content = Returns (Int P) ->
  body !! "max_tokens" = Some (VNum (Int R)) ->
  adjustMaxExpectedResponseTokens body st = (Returns body', st') ->
  st' = st
  /\ exists R', body' = <["max_tokens" := VNum (Int R')]> body
                /\ (R' <= R)%Z /\ (P + R' <= token_limit m)%Z.
Proof.
  intros Hname Hm Ha Hcontent Hcount Hmax.
  unfold adjustMaxExpectedResponseTokens. run.
  rewrite Hname. simpl. rewrite Hm. destruct m as [fam lim us ps meth].
  simpl in Ha. subst meth. rewrite Hcontent. simpl.
  rewrite Hcount. simpl. rewrite num_gt_Int, Hmax.
  unfold js_gt, js_add. simpl. rewrite num_add_Int, num_gt_Int, num_sub_Int.
  destruct (Z.ltb_spec lim P); [discriminate|].
  destruct (Z.ltb_spec lim (P + R)); intros [= <- <-]; (split; [reflexivity|]).
  - exists (lim - P)%Z. split; [reflexivity|]. simpl. lia.
  - exists R. split; [symmetry; apply insert_id, Hmax|]. simpl. lia.
Qed.


(** X13: a rejection of [#makeApiCall] has one of three origins.  When the
    adjustment of the request throws, its error is wrapped as the cause of
    the error of the request.  When the request is sent and the reply can
    be read, the rejection is one of the errors the method builds itself:
    that of the request, that of the API, or that of reading the response.
    When the reply cannot be read by the [catch] block that handles it (the
    value thrown is no object, the API's failure has no [error], or the
    response has no [data]), the rejection is the [TypeError] of that read,
    passed on as it is. *)
Theorem makeApiCall_rejections (conn : connection) (body : obj) (st : ChatGPT) (e : error) :
  makeApiCall conn body st = Rejected e ->
  (exists cause, (adjustMaxExpectedResponseTokens body st).1 = Throws cause
                 /\ e = RequestFailed (Some cause))
  \/ (exists a b, request body st = Some (a, b)
                  /\ if unreadable (conn a b) then exists what, e = HostTypeError what
                     else wrapped e).
Proof.
  destruct (request body st) as [[a b]|] eqn:Hreq.
  - rewrite (makeApiCall_sent conn body st a b Hreq). intros Hcall. right.
    exists a, b. split; [reflexivity|].
    destruct (conn a b) as [choices| |status type message|status| |]; simpl;
      try (injection Hcall as <-; eauto; exact I).
    revert Hcall. unfold parse_response.
    destruct (extractResponse a choices) as [out|e']; [|intros [= <-]; exact I].
    destruct (Nat.eqb (String.length out) 0); [intros [= <-]; exact I|].
    destruct (getFinishReason choices) as [r|]; [|discriminate].
    destruct r as [|c1 r]; [discriminate|].
    repeat (match goal with
            | |- (match ?x with _ => _ end) = _ -> _ =>
                destruct x; try discriminate
            end).
  - intros Hcall. left. revert Hreq. unfold request.
    destruct (adjustMaxExpectedResponseTokens body st) as [[body'|cause] st1] eqn:Hadj.
    + intros Hreq. exfalso. revert Hadj Hreq. unfold adjustMaxExpectedResponseTokens. run.
      destruct (lookup_model _ _) as [[? lim ? ? [a|]]|]; discriminate.
    + intros _. unfold makeApiCall in Hcall. rewrite Hadj in Hcall.
      injection Hcall as <-. eauto.
Qed.

(** X14: on a string, the count is never negative; and it is either the
    estimate from the length or the number of tokens the encoder produced,
    in which case it is positive and within the limit of a model of the
    catalog. *)
Theorem countTokensStr_range (ms : catalog) (s : string) :
  (0 <= countTokensStr ms s)%Z
  /\ (countTokensStr ms s = Z.of_nat (String.length s) / 4
      \/ exists encoded km,
           encode s = Some encoded
           /\ countTokensStr ms s = Z.of_nat (length encoded)
           /\ (0 < countTokensStr ms s)%Z
           /\ In km ms /\ (countTokensStr ms s <= token_limit km.2)%Z).
Proof.
  assert (Hq : (0 <= Z.of_nat (String.length s) / 4)%Z)
    by (apply Z.div_pos; lia).
  unfold countTokensStr, quarter. destruct (encode s) as [encoded|] eqn:E; [|auto].
  cbv zeta. destruct (Z.eqb_spec (Z.of_nat (length encoded)) 0) as [Hz|Hz]; simpl; [auto|].
  destruct (num_gt _ _) eqn:Hgt; [auto|]. split; [lia|]. right.
  destruct (max_token_limit_cases ms) as [[-> Hmax]|(z & Hmax & (km & Hin & Hkm) & _)];
    rewrite Hmax in Hgt.
  - discriminate.
  - rewrite num_gt_Int in Hgt. apply Z.ltb_ge in Hgt.
    exists encoded, km. repeat split; try assumption; lia.
Qed.

End CallsMore.

Lemma adjust_fits_witness :
  exists R',
    (@adjustMaxExpectedResponseTokens (host_of chars_encoder) (body_small 5000)
       (new_ChatGPT None)).1
    = Returns (<["max_tokens" := VNum (Int R')]> (body_small 5000))
    /\ (R' <= 5000)%Z /\ (8 + R' <= 4096)%Z.
Proof.
  assert (E : @adjustMaxExpectedResponseTokens (host_of chars_encoder) (body_small 5000)
                (new_ChatGPT None)
              = (Returns (<["max_tokens" := VNum (Int 4088)]> (body_small 5000)),
                 new_ChatGPT None)) by (vm_compute; reflexivity).
  destruct (@adjust_fits (host_of chars_encoder) (new_ChatGPT None) _
              (body_small 5000) _ "text-davinci-003" text_davinci_003 createCompletion
              (VStr "abcdefgh") 8 5000 eq_refl eq_refl eq_refl eq_refl eq_refl
              eq_refl E) as (_ & R' & HR & Hle & Hfit).
  exists R'. rewrite E. simpl. rewrite HR. auto.
Defined.


Lemma makeApiCall_rejections_witness :
  @makeApiCall (host_of chars_encoder) conn_down body_too_big session_small_models
  = Rejected (RequestFailed (Some (QueryTooBig (Int 8) 4)))
  /\ @makeApiCall (host_of chars_encoder) conn_bad_gateway (body_small 16)
       (new_ChatGPT None)
     = Rejected (HostTypeError "error")
  /\ (exists a b,
        @request (host_of chars_encoder) (body_small 16) (new_ChatGPT None) = Some (a, b)
        /\ unreadable (conn_bad_gateway a b) = true)
  /\ (exists a b,
        @request (host_of chars_encoder) (body_small 16) (new_ChatGPT None) = Some (a, b)
        /\ wrapped (RequestFailed None)).
Proof.
  assert (E1 : @makeApiCall (host_of chars_encoder) conn_down body_too_big
                 session_small_models
               = Rejected (RequestFailed (Some (QueryTooBig (Int 8) 4))))
    by (vm_compute; reflexivity).
  assert (E2 : @makeApiCall (host_of chars_encoder) conn_bad_gateway (body_small 16)
                 (new_ChatGPT None)
               = Rejected (HostTypeError "error"))
    by (vm_compute; reflexivity).
  assert (E3 : @makeApiCall (host_of chars_encoder) conn_down (body_small 16)
                 (new_ChatGPT None)
               = Rejected (RequestFailed None))
    by (vm_compute; reflexivity).
  assert (Hpasses : match (@adjustMaxExpectedResponseTokens (host_of chars_encoder)
                             (body_small 16) (new_ChatGPT None)).1 with
                    | Returns _ => true
                    | Throws _ => false
                    end = true) by (vm_compute; reflexivity).
  split; [exact E1|]. split; [exact E2|]. split.
  - destruct (@makeApiCall_rejections (host_of chars_encoder) conn_bad_gateway
                (body_small 16) (new_ChatGPT None) _ E2)
      as [(cause & Hadj & _)|(a & b & Hreq & Hraw)].
    + rewrite Hadj in Hpasses. discriminate Hpasses.
    + exists a, b. split; [exact Hreq|]. reflexivity.
  - destruct (@makeApiCall_rejections (host_of chars_encoder) conn_down
                (body_small 16) (new_ChatGPT None) _ E3)
      as [(cause & Hadj & _)|(a & b & Hreq & Hwrapped)].
    + rewrite Hadj in Hpasses. discriminate Hpasses.
    + exists a, b. split; [exact Hreq|]. exact Hwrapped.
Defined.

(** ** More on [chat] and [query] *)

Section SessionMore.
Context `{Host}.

Lemma lookup_model_key (ms : catalog) (name : string) (m : model) :
  lookup_model ms name = Some m -> name ∈ keys ms.
Proof.
  induction ms as [|[k m'] ms IH]; simpl; [discriminate|].
  destruct (String.eqb_spec k name) as [->|_].
  - intros _. apply list_elem_of_here.
  - intros Hm. apply list_elem_of_further, IH, Hm.
Qed.

(** X15: choosing a model leaves the instance as it is.  A string it
    returns is a key of the catalog, or else it is the model requested and
    one of the names the catalog inherits as an object, which is no model;
    anything else it returns is [undefined] or the value that was requested;
    and it throws only when the catalog is empty. *)
Theorem getModelName_sound (tempConf : option obj) (wanted : string) (st : ChatGPT) :
  exists r,
    getModelName tempConf wanted st = (r, st)
    /\ match r with
       | Returns (VStr k) =>
           k ∈ keys (models st)
           \/ (k ∈ inherited /\ lookup_model (models st) k = None
               /\ exists tc, tempConf = Some tc /\ tc !! "model" = Some (VStr k))
       | Returns v => v = VUndefined
                      \/ exists tc, tempConf = Some tc /\ tc !! "model" = Some v
       | Throws _ => models st = []
       end.
Proof.
  unfold getModelName. run.
  destruct (match tempConf with Some _ => _ | None => _ end) as [v|] eqn:Hreq.
  - eexists. split; [reflexivity|]. destruct tempConf as [tc|]; [|discriminate].
    destruct (truthy (prop tc "model")) eqn:Ht; [|discriminate]. simpl in Hreq.
    destruct (in_models _ _) eqn:Hin; [|discriminate]. injection Hreq as <-.
    unfold prop in *. destruct (tc !! "model") as [v|] eqn:Hv; [|discriminate].
    simpl in *. destruct v; eauto.
    unfold in_models in Hin. simpl in Hin.
    destruct (lookup_model (models st) s) as [m|] eqn:Hm.
    + left. eapply lookup_model_key, Hm.
    + right. apply bool_decide_eq_true_1 in Hin. eauto.
  - destruct (List.find _ _) as [k|] eqn:Hfind.
    + destruct (negb _) eqn:Hk; eexists; (split; [reflexivity|]); simpl; [|auto].
      apply find_some in Hfind as [Hkey _]. left. apply list_elem_of_In, Hkey.
    + destruct (models st) as [|[k m] ms]; eexists; (split; [reflexivity|]); simpl; auto.
Qed.

(** X6: an input that is not a string, or is the empty string, is refused
    before anything else happens: [chat] rejects and [query] throws, both
    with the error of [#checkNonemptyString] for that input, which is its
    [TypeError] when the input is not a string and its error of the empty
    string when it is one, whatever the backend; and the instance is as it
    was. *)
Theorem invalid_input_is_refused (input_v : value) (tempConf : option obj)
    (conn : connection) (st : ChatGPT) :
  (forall s, input_v = VStr s -> s = "") ->
  chat input_v tempConf conn st
  = (Rejected match input_v with
              | VStr _ => EmptyString
              | _ => ExpectedNonemptyString
              end, st)
  /\ query input_v tempConf conn st
     = (Throws match input_v with
               | VStr _ => EmptyString
               | _ => ExpectedNonemptyString
               end, st).
Proof.
  intros Hbad. unfold chat, chat_body, query. run.
  destruct input_v as [| | | |s| |]; simpl; auto.
  rewrite (Hbad s eq_refl). simpl. auto.
Qed.

Lemma createBody_no_override (model_name : value) (st : ChatGPT) :
  (createBody model_name None st).2 = st.
Proof.
  unfold createBody. destruct model_name; try reflexivity. run.
  destruct (in_models (models st) s).
  - destruct (lookup_model _ _) as [[? ? ? [ps|] ?]|]; reflexivity.
  - destruct (engines st) as [ids|]; [case_bool_decide|]; reflexivity.
Qed.

(** X11: [query] records nothing: the history, the summary, the names, the
    catalog and the engines are what they were, and without a temporary
    configuration so is the whole instance. *)
Theorem query_records_nothing (input_v : value) (tempConf : option obj)
    (conn : connection) (st : ChatGPT) :
  (query input_v tempConf conn st).2 = set_conf (conf (query input_v tempConf conn st).2) st
  /\ (tempConf = None -> (query input_v tempConf conn st).2 = st).
Proof.
  split.
  - destruct (query_cases input_v tempConf conn st) as (c' & -> & _). reflexivity.
  - intros ->. unfold query. run.
    destruct (checkNonemptyString input_v) as [prompt|e]; [|reflexivity].
    pose proof (getModelName_state None "query" st) as Hst.
    destruct (getModelName None "query" st) as [[model_name|e] st1];
      simpl in Hst; subst st1; [|reflexivity].
    pose proof (createBody_no_override model_name st) as Hb.
    destruct (createBody model_name None st) as [[body|e] st2]; simpl in Hb; subst st2;
      reflexivity.
Qed.

(** X12: [chat] never resolves.  By the time it rejects, the summary is
    what it was, and the history is either what it was or longer by one
    record: the question, with an answer that is not empty, not summarized,
    counted with the catalog of the session. *)
Theorem chat_outcome (input_v : value) (tempConf : option obj) (conn : connection)
    (st : ChatGPT) :
  exists e st',
    chat input_v tempConf conn st = (Rejected e, st')
    /\ summary st' = summary st
    /\ (history st' = history st
        \/ exists question answer,
             input_v = VStr question /\ question <> "" /\ answer <> ""
             /\ history st' = (history st ++ [new_turn (models st) question answer])%list).
Proof.
  unfold chat, chat_body. run.
  destruct (checkNonemptyString input_v) as [question|e] eqn:Hcheck; [|eauto 6].
  assert (Hq : input_v = VStr question /\ question <> "").
  { destruct input_v; try discriminate. simpl in Hcheck.
    destruct (String.eqb_spec s ""); [discriminate|]. injection Hcheck as <-. auto. }
  pose proof (getModelName_state (Some (default ∅ tempConf)) "chat" st) as Hst.
  destruct (getModelName _ "chat" st) as [[model_name|e] st1]; simpl in Hst; subst st1;
    [|eauto 6].
  destruct (createBody_frame model_name (Some (default ∅ tempConf)) st) as [c1 Hc1].
  destruct (createBody model_name _ st) as [[body|e] st2]; simpl in Hc1; subst st2;
    [|eauto 6].
  rewrite chat_messages_spec.
  match goal with
  | |- context [makeApiCall conn ?b ?s] => destruct (makeApiCall conn b s) as [answer|e] eqn:Hcall
  end; simpl; [|eauto 6].
  apply makeApiCall_resolved in Hcall.
  match goal with
  | |- context [summarizeSingleInputOutput question answer conn ?s] =>
      set (pushed := s);
      destruct (summarizeSingleInputOutput_frame question answer conn pushed) as [c2 Hc2];
      destruct (summarizeSingleInputOutput question answer conn pushed) as [[p|e] st3]
  end; simpl in Hc2; subst st3.
  2: { do 2 eexists. split; [reflexivity|]. split; [reflexivity|].
       right. exists question, answer. destruct Hq. auto. }
  destruct (summarizeConversationIfCutoffExceeded_frame false conn (set_conf c2 pushed))
    as [c3 Hc3].
  destruct (summarizeConversationIfCutoffExceeded false conn (set_conf c2 pushed))
    as [[[]|e] st4]; simpl in Hc3; subst st4;
    (do 2 eexists; split; [reflexivity|]; split; [reflexivity|];
     right; exists question, answer; destruct Hq; auto).
Qed.

End SessionMore.

Lemma invalid_input_is_refused_witness :
  (@chat (host_of chars_encoder) (VStr "") None conn_down (new_ChatGPT None)
   = (Rejected EmptyString, new_ChatGPT None)
   /\ @query (host_of chars_encoder) (VStr "") None conn_down (new_ChatGPT None)
      = (Throws EmptyString, new_ChatGPT None))
  /\ (@chat (host_of chars_encoder) (VNum (Int 5)) None conn_down (new_ChatGPT None)
      = (Rejected ExpectedNonemptyString, new_ChatGPT None)
      /\ @query (host_of chars_encoder) (VNum (Int 5)) None conn_down (new_ChatGPT None)
         = (Throws ExpectedNonemptyString, new_ChatGPT None)).
Proof.
  split.
  - apply (@invalid_input_is_refused (host_of chars_encoder) (VStr "") None conn_down
             (new_ChatGPT None)).
    intros s [= <-]. reflexivity.
  - apply (@invalid_input_is_refused (host_of chars_encoder) (VNum (Int 5)) None
             conn_down (new_ChatGPT None)).
    intros s Hs. discriminate Hs.
Defined.

(** A model requested under a name that the catalog only inherits is
    returned as it is, and building the request then fails on the
    parameters, which that name does not have. *)
Lemma getModelName_inherited_example :
  @getModelName (host_of chars_encoder) (Some {[ "model" := VStr "toString" ]}) "chat"
    (new_ChatGPT None)
  = (Returns (VStr "toString"), new_ChatGPT None)
  /\ (@createBody (host_of chars_encoder) (VStr "toString") None (new_ChatGPT None)).1
     = Throws (HostTypeError "params is not iterable").
Proof. split; vm_compute; reflexivity. Qed.

(** ** The command line and the start-up *)

Lemma span_spec (p : ascii -> bool) (s run rest : string) :
  span p s = (run, rest) ->
  s = run ++ rest /\ all_chars p run = true
  /\ String.length s = (String.length run + String.length rest)%nat.
Proof.
  revert run rest. induction s as [|c s IH]; intros run rest; simpl.
  - intros [= <- <-]. auto.
  - destruct (p c) eqn:Hc.
    + destruct (span p s) as [run' rest']. intros [= <- <-].
      destruct (IH _ _ eq_refl) as (-> & Hall & Hlen). simpl. rewrite Hc, Hall, Hlen. auto.
    + intros [= <- <-]. auto.
Qed.

Lemma all_chars_app (p : ascii -> bool) (s t : string) :
  all_chars p (s ++ t) = all_chars p s && all_chars p t.
Proof. induction s as [|c s IH]; simpl; [reflexivity|]. rewrite IH, andb_assoc. reflexivity. Qed.

Lemma match_quoted_shorter (s m rest : string) :
  match_quoted s = Some (m, rest) -> (String.length rest < String.length s)%nat.
Proof.
  destruct s as [|c s]; simpl; [discriminate|].
  destruct (Ascii.eqb c dquote); [|discriminate].
  destruct (span not_dquote s) as [run rest'] eqn:E.
  destruct run as [|r run]; [discriminate|]. destruct rest' as [|q rest']; [discriminate|].
  intros [= <- <-]. apply span_spec in E as (_ & _ & Hlen). simpl in Hlen. lia.
Qed.

Lemma match_quoted_first (s m rest : string) :
  match_quoted s = Some (m, rest) -> exists s', s = String dquote s'.
Proof.
  destruct s as [|c s]; simpl; [discriminate|].
  destruct (Ascii.eqb_spec c dquote) as [->|]; [eauto|discriminate].
Qed.

(** The scan does not depend on its fuel once the fuel covers the
    length. *)
Lemma scan_fuel (fuel1 fuel2 : nat) (s : string) :
  (String.length s <= fuel1)%nat -> (String.length s <= fuel2)%nat ->
  scan fuel1 s = scan fuel2 s.
Proof.
  revert fuel2 s. induction fuel1 as [|fuel1 IH]; intros fuel2 s H1 H2.
  - destruct s; [|simpl in H1; lia]. destruct fuel2; reflexivity.
  - destruct fuel2 as [|fuel2]; [destruct s; [reflexivity|simpl in H2; lia]|].
    destruct s as [|c s]; [reflexivity|]. simpl in H1, H2.
    change (scan (S fuel1) (String c s))
      with (match match_quoted (String c s) with
            | Some (m, rest) => m :: scan fuel1 rest
            | None => if is_space c then scan fuel1 s
                      else let '(run, rest) := span not_space (String c s) in
                           run :: scan fuel1 rest
            end).
    change (scan (S fuel2) (String c s))
      with (match match_quoted (String c s) with
            | Some (m, rest) => m :: scan fuel2 rest
            | None => if is_space c then scan fuel2 s
                      else let '(run, rest) := span not_space (String c s) in
                           run :: scan fuel2 rest
            end).
    destruct (match_quoted (String c s)) as [[m rest]|] eqn:Hq.
    + apply match_quoted_shorter in Hq. simpl in Hq. f_equal. apply IH; lia.
    + destruct (is_space c) eqn:Hc; [apply IH; lia|].
      destruct (span not_space (String c s)) as [run rest] eqn:Hs.
      pose proof Hs as Hs'. apply span_spec in Hs' as (_ & _ & Hlen).
      simpl in Hs. unfold not_space at 1 in Hs. rewrite Hc in Hs. simpl in Hs.
      destruct (span not_space s) as [run' rest']. injection Hs as <- <-.
      simpl in Hlen. f_equal. apply IH; lia.
Qed.

Lemma scan_blank (fuel : nat) (s : string) :
  (String.length s <= fuel)%nat ->
  (scan fuel s = [] <-> all_chars is_space s = true).
Proof.
  revert s. induction fuel as [|fuel IH]; intros s Hlen.
  - destruct s; [|simpl in Hlen; lia]. split; reflexivity.
  - destruct s as [|c s]; [split; reflexivity|]. simpl in Hlen.
    change (scan (S fuel) (String c s))
      with (match match_quoted (String c s) with
            | Some (m, rest) => m :: scan fuel rest
            | None => if is_space c then scan fuel s
                      else let '(run, rest) := span not_space (String c s) in
                           run :: scan fuel rest
            end).
    destruct (match_quoted (String c s)) as [[m rest]|] eqn:Hq.
    + apply match_quoted_first in Hq as [s' [= -> ->]].
      split; [discriminate|]. intros Hb. vm_compute in Hb. discriminate.
    + destruct (span not_space (String c s)) as [run rest].
      change (all_chars is_space (String c s)) with (is_space c && all_chars is_space s).
      destruct (is_space c).
      * apply IH. lia.
      * split; discriminate.
Qed.

(** X16: [parseInput] throws exactly on the inputs that hold nothing but
    white space, the empty one among them; on any other input it returns a
    command. *)
Theorem parseInput_blank (s : string) :
  (all_chars is_space s = true ->
     parseInput s = Throws (HostTypeError "null is not iterable"))
  /\ (all_chars is_space s = false -> exists cmd args, parseInput s = Returns (cmd, args)).
Proof.
  unfold parseInput. pose proof (scan_blank (String.length s) s (le_n _)) as Hb. split.
  - intros Hblank. apply Hb in Hblank. rewrite Hblank. reflexivity.
  - intros Hfull. destruct (scan (String.length s) s) as [|m ms]; simpl; [|eauto].
    rewrite (proj1 Hb eq_refl) in Hfull. discriminate.
Qed.

Lemma strip_quotes_clean (s : string) : all_chars not_dquote (strip_quotes s) = true.
Proof.
  induction s as [|c s IH]; simpl; [reflexivity|].
  destruct (Ascii.eqb c dquote) eqn:Hc; [exact IH|].
  simpl. unfold not_dquote at 1. rewrite Hc, IH. reflexivity.
Qed.

Lemma strip_quotes_id (s : string) : all_chars not_dquote s = true -> strip_quotes s = s.
Proof.
  induction s as [|c s IH]; simpl; [reflexivity|]. unfold not_dquote at 1.
  destruct (Ascii.eqb c dquote); simpl; [discriminate|]. intros Hs. rewrite IH; auto.
Qed.

(** On an input without quotation marks, the matches are its words: none is
    empty and none holds white space. *)
Lemma scan_words (fuel : nat) (s : string) :
  all_chars not_dquote s = true ->
  forall w, In w (scan fuel s) ->
            w <> "" /\ all_chars not_space w = true /\ all_chars not_dquote w = true.
Proof.
  revert s. induction fuel as [|fuel IH]; intros s Hs w; [intros []|].
  destruct s as [|c s]; [intros []|].
  change (scan (S fuel) (String c s))
    with (match match_quoted (String c s) with
          | Some (m, rest) => m :: scan fuel rest
          | None => if is_space c then scan fuel s
                    else let '(run, rest) := span not_space (String c s) in
                         run :: scan fuel rest
          end).
  destruct (match_quoted (String c s)) as [[m rest]|] eqn:Hq.
  { apply match_quoted_first in Hq as [s' [= -> ->]]. discriminate. }
  simpl in Hs. apply andb_true_iff in Hs as [Hc Hs].
  destruct (is_space c) eqn:Hsp; [apply IH, Hs|].
  destruct (span not_space (String c s)) as [run rest] eqn:Hspan.
  pose proof Hspan as Hspec. apply span_spec in Hspec as (Heq & Hrun & _).
  assert (Hall : all_chars not_dquote (run ++ rest) = true)
    by (rewrite <- Heq; simpl; rewrite Hc, Hs; reflexivity).
  rewrite all_chars_app in Hall. apply andb_true_iff in Hall as [Hrun' Hrest].
  intros [<-|Hin]; [|apply (IH rest Hrest w Hin)].
  split; [|auto]. simpl in Hspan. unfold not_space at 1 in Hspan. rewrite Hsp in Hspan.
  simpl in Hspan. destruct (span not_space s). injection Hspan as <- _. discriminate.
Qed.

(** X17: no string that [parseInput] returns holds a quotation mark; and on
    an input without quotation marks, the command and the arguments are
    words of the input: none is empty and none holds white space. *)
Theorem parseInput_words (s cmd : string) (args : list string) :
  parseInput s = Returns (cmd, args) ->
  (forall w, In w (cmd :: args) -> all_chars not_dquote w = true)
  /\ (all_chars not_dquote s = true ->
      forall w, In w (cmd :: args) -> w <> "" /\ all_chars not_space w = true).
Proof.
  unfold parseInput.
  destruct (List.map strip_quotes (scan (String.length s) s)) as [|c l] eqn:E; [discriminate|].
  intros [= <- <-]. rewrite <- E. split.
  - intros w Hin. apply in_map_iff in Hin as (m & <- & _). apply strip_quotes_clean.
  - intros Hs w Hin. apply in_map_iff in Hin as (m & <- & Hin).
    destruct (scan_words _ s Hs m Hin) as (Hne & Hsp & Hq).
    rewrite (strip_quotes_id m Hq). auto.
Qed.

Lemma parseInput_blank_witness :
  parseInput "   " = Throws (HostTypeError "null is not iterable")
  /\ exists cmd args, parseInput "stats now" = Returns (cmd, args).
Proof.
  split.
  - apply (proj1 (parseInput_blank "   ")). reflexivity.
  - apply (proj2 (parseInput_blank "stats now")). reflexivity.
Defined.

Lemma parseInput_words_witness :
  parseInput "delete  2" = Returns ("delete", ["2"])
  /\ ("delete" <> "" /\ all_chars not_space "delete" = true)
  /\ ("2" <> "" /\ all_chars not_space "2" = true).
Proof.
  pose proof (proj2 (parseInput_words "delete  2" "delete" ["2"] eq_refl) eq_refl) as Hw.
  split; [reflexivity|]. split; apply Hw; simpl; auto.
Defined.

(** X18: where nothing is bound to the identifier [response], [init] never
    resolves, whatever the listing of the engines comes to; the binding is
    still missing afterwards, and [engines] is either what it was or the
    empty object, never the engines listed. *)
Theorem init_without_binding (reply : listing_reply) (st : ChatGPT) :
  exists e st',
    init None reply st = (Some e, st', None)
    /\ (st' = st \/ st' = set_engines (Some []) st).
Proof. destruct reply as [l|[message|]| |]; simpl; eauto. Qed.
